(** * Swaadisth API: session guard, token codec and account lifecycle job

    A shallow embedding of [server.js]: the Express handlers become
    functions in a state monad over the Supabase tables, the clock is an
    explicit argument ([now], milliseconds since the epoch, the value of
    [Date.now()]), and the two libraries the server talks to
    (jsonwebtoken, supabase-js) are modelled by the part of their behaviour
    the handlers observe.

    Layout: the ECMAScript date arithmetic used by the cleanup job, the
    token codec, the tables and the query builder, the handlers, the job;
    then the facts proved about them. *)

From Stdlib Require Import ZArith Lia Ascii String.
From stdpp Require Import base option list strings gmap.

Local Open Scope string_scope.
Local Open Scope Z_scope.

(* ===================================================================== *)
(** ** ECMAScript [Date] arithmetic

    [new Date()], [getMonth], [setMonth] and [toISOString] as ECMA-262
    defines them (section "Time Values and Time Range"), over time values
    in milliseconds.  Time values are taken inside the representable range
    (|t| <= 8.64e15), so [TimeClip] is the identity.  The host time zone
    is [tza], the abstract operation [LocalTZA(t, isUTC)]: the offset in
    milliseconds in force at [t], where [t] is a UTC time value when
    [isUTC] is true and a local one when it is false.  Daylight saving
    makes it differ from one instant to another. *)

Module JSDate.

Definition msPerDay : Z := 86400000.

Definition Day (t : Z) : Z := t / msPerDay.

Definition TimeWithinDay (t : Z) : Z := t mod msPerDay.

Definition DaysInYear (y : Z) : Z :=
  if negb (y mod 4 =? 0) then 365
  else if negb (y mod 100 =? 0) then 366
  else if negb (y mod 400 =? 0) then 365
  else 366.

Definition DayFromYear (y : Z) : Z :=
  365 * (y - 1970) + (y - 1969) / 4 - (y - 1901) / 100 + (y - 1601) / 400.

(** ECMA-262 defines the year of a day as the largest [y] with
    [DayFromYear y <= d]; the estimate below is off by at most one and is
    corrected in place ([YearFromDay_spec] proves the characterisation). *)
Definition YearFromDay (d : Z) : Z :=
  let y := 1970 + (400 * d) / 146097 in
  if DayFromYear (y + 1) <=? d then y + 1
  else if d <? DayFromYear y then y - 1
  else y.

Definition YearFromTime (t : Z) : Z := YearFromDay (Day t).

Definition InLeapYear (t : Z) : Z :=
  if DaysInYear (YearFromTime t) =? 366 then 1 else 0.

Definition DayWithinYear (t : Z) : Z := Day t - DayFromYear (YearFromTime t).

(** Number of days of the year before month [m] (0 = January). *)
Definition MonthStart (m leap : Z) : Z :=
  match m with
  | 0 => 0
  | 1 => 31
  | 2 => 59 + leap
  | 3 => 90 + leap
  | 4 => 120 + leap
  | 5 => 151 + leap
  | 6 => 181 + leap
  | 7 => 212 + leap
  | 8 => 243 + leap
  | 9 => 273 + leap
  | 10 => 304 + leap
  | _ => 334 + leap
  end.

Definition MonthFromTime (t : Z) : Z :=
  let d := DayWithinYear t in
  let leap := InLeapYear t in
  if d <? 31 then 0
  else if d <? 59 + leap then 1
  else if d <? 90 + leap then 2
  else if d <? 120 + leap then 3
  else if d <? 151 + leap then 4
  else if d <? 181 + leap then 5
  else if d <? 212 + leap then 6
  else if d <? 243 + leap then 7
  else if d <? 273 + leap then 8
  else if d <? 304 + leap then 9
  else if d <? 334 + leap then 10
  else 11.

Definition DateFromTime (t : Z) : Z :=
  DayWithinYear t - MonthStart (MonthFromTime t) (InLeapYear t) + 1.

(** [MakeDay(year, month, date)]: the month may lie outside 0..11 and
    the date outside the month; both carry over. *)
Definition MakeDay (year month date : Z) : Z :=
  let ym := year + month / 12 in
  let mn := month mod 12 in
  let leap := if DaysInYear ym =? 366 then 1 else 0 in
  DayFromYear ym + MonthStart mn leap + date - 1.

Definition MakeDate (day time : Z) : Z := day * msPerDay + time.

(** [LocalTime(t)]: the offset is the one in force at the instant [t]. *)
Definition LocalTime (tza : Z -> bool -> Z) (t : Z) : Z := t + tza t true.

(** [UTC(t)]: the offset is the one in force at the local time [t]. *)
Definition UTC (tza : Z -> bool -> Z) (t : Z) : Z := t - tza t false.

(** The offsets of the zone never differ by more than [V]. *)
Definition varies_within (tza : Z -> bool -> Z) (V : Z) : Prop :=
  forall t b t' b', tza t b - tza t' b' <= V.

(** [Date.prototype.getMonth] *)
Definition getMonth (tza : Z -> bool -> Z) (t : Z) : Z :=
  MonthFromTime (LocalTime tza t).

(** [Date.prototype.setMonth(month)] with the date argument absent. *)
Definition setMonth (tza : Z -> bool -> Z) (t month : Z) : Z :=
  let lt := LocalTime tza t in
  let newDate :=
    MakeDate (MakeDay (YearFromTime lt) month (DateFromTime lt))
             (TimeWithinDay lt) in
  UTC tza newDate.

End JSDate.

(* ===================================================================== *)
(** ** JavaScript values at the edges

    Request fields and column values are carried by their text; a field
    that is absent ([undefined]) is [None]. *)

(** [!v] for a string-or-undefined value. *)
Definition falsy (v : option string) : bool :=
  match v with
  | None => true
  | Some EmptyString => true
  | Some _ => false
  end.

(** The string behind a value already known to be truthy. *)
Definition text (v : option string) : string :=
  match v with
  | Some s => s
  | None => EmptyString
  end.

(** [s.split(sep)] for a one-character separator. *)
Fixpoint str_split (sep : ascii) (s : string) : list string :=
  match s with
  | EmptyString => [EmptyString]
  | String c rest =>
      if decide (c = sep) then EmptyString :: str_split sep rest
      else match str_split sep rest with
           | [] => [String c EmptyString]
           | w :: ws => String c w :: ws
           end
  end.

(** Whether the character [c] occurs in [s]. *)
Fixpoint occurs (c : ascii) (s : string) : bool :=
  match s with
  | EmptyString => false
  | String d rest => bool_decide (d = c) || occurs c rest
  end.

(* ===================================================================== *)
(** ** jsonwebtoken

    A token is modelled symbolically: the claims it carries and the key
    under which its HMAC signature checks.  The compact serialisation
    (base64url of header, payload and signature) is the [Codec]; a string
    that is not a well-formed token decodes to [None]. *)

Module JWT.

Record payload := Payload {
  user_id : option Z;
  mobile : option string;
  iat : Z;
  exp : option Z
}.

Record jws := Jws { claims : payload; key : string }.

Inductive verify_error :=
| JsonWebTokenError (message : string)
| TokenExpiredError.

Class Codec := {
  encode : jws -> string;
  decode : string -> option jws
}.

(** Decoding undoes encoding. *)
Class CodecLaws `{Codec} : Prop :=
  decode_encode : forall t : jws, decode (encode t) = Some t.

(** [ms("7d") / 1000] *)
Definition expiresIn_7d : Z := 7 * 24 * 60 * 60.

(** The token [jwt.sign(payload, secret, { expiresIn })] returns: [iat]
    is the clock in whole seconds, [exp] is [iat] plus the span.  The call
    itself can throw, see [sign_or_throw]. *)
Definition sign `{Codec} (uid : option Z) (mob : option string)
    (secret : string) (expiresIn : Z) (now : Z) : string :=
  let timestamp := now / 1000 in
  encode {| claims := {| user_id := uid; mobile := mob;
                         iat := timestamp;
                         exp := Some (timestamp + expiresIn) |};
            key := secret |}.

(** [jwt.sign] as a call: with an empty or unset secret it throws
    ("secretOrPrivateKey must have a value") and returns nothing. *)
Definition sign_or_throw `{Codec} (uid : option Z) (mob : option string)
    (secret : string) (expiresIn : Z) (now : Z) : option string :=
  if falsy (Some secret) then None
  else Some (sign uid mob secret expiresIn now).

(** [jwt.verify(token, secret)]: throws on a malformed token, on a
    signature that does not check under [secret], and once the clock (in
    whole seconds) has reached [exp]; no clock tolerance is configured. *)
Definition verify `{Codec} (token secret : string) (now : Z)
    : verify_error + payload :=
  match decode token with
  | None => inl (JsonWebTokenError "jwt malformed")
  | Some t =>
      if negb (bool_decide (key t = secret))
      then inl (JsonWebTokenError "invalid signature")
      else
        let clockTimestamp := now / 1000 in
        match exp (claims t) with
        | Some e =>
            if e <=? clockTimestamp then inl TokenExpiredError
            else inr (claims t)
        | None => inr (claims t)
        end
  end.

End JWT.

(* ===================================================================== *)
(** ** Tables *)

Module User.
Record t := Row {
  id : Z;
  mobile_number : string;
  email : string;
  name : string;
  last_login : option Z      (* timestamptz, NULL when unset *)
}.

Definition set_last_login (v : option Z) (u : t) : t :=
  {| id := id u; mobile_number := mobile_number u; email := email u;
     name := name u; last_login := v |}.
End User.

Module Address.
(** [cols] holds the free-text columns (full_name, mobile_number,
    address_line1, address_line2, landmark, pincode, city, state, type);
    a column that was never given a value is absent from the map. *)
Record t := Row {
  id : Z;
  user_id : Z;
  cols : gmap string string
}.

Definition set_cols (c : gmap string string) (a : t) : t :=
  {| id := id a; user_id := user_id a; cols := c |}.
End Address.

#[global] Instance user_eq_dec : EqDecision User.t.
Proof. solve_decision. Defined.

#[global] Instance address_eq_dec : EqDecision Address.t.
Proof. solve_decision. Defined.

Record store := Store {
  users : list User.t;
  addresses : list Address.t;
  news_letter : list string;       (* the email column of news_letter *)
  users_seq : Z;                   (* next value of users.id *)
  addresses_seq : Z                (* next value of addresses.id *)
}.

Definition set_users (l : list User.t) (s : store) : store :=
  {| users := l; addresses := addresses s; news_letter := news_letter s;
     users_seq := users_seq s; addresses_seq := addresses_seq s |}.

Definition set_addresses (l : list Address.t) (s : store) : store :=
  {| users := users s; addresses := l; news_letter := news_letter s;
     users_seq := users_seq s; addresses_seq := addresses_seq s |}.

Definition set_news_letter (l : list string) (s : store) : store :=
  {| users := users s; addresses := addresses s; news_letter := l;
     users_seq := users_seq s; addresses_seq := addresses_seq s |}.

Definition set_users_seq (n : Z) (s : store) : store :=
  {| users := users s; addresses := addresses s; news_letter := news_letter s;
     users_seq := n; addresses_seq := addresses_seq s |}.

Definition set_addresses_seq (n : Z) (s : store) : store :=
  {| users := users s; addresses := addresses s; news_letter := news_letter s;
     users_seq := users_seq s; addresses_seq := n |}.

(** What the process is configured with and what the schema fixes. *)
Class Runtime := {
  JWT_SECRET : string;                      (* process.env.JWT_SECRET *)
  LocalTZA : Z -> bool -> Z;                (* host time zone: offset in ms
                                               at a UTC or local time *)
  jwt_codec :: JWT.Codec;
  last_login_default : Z -> option Z        (* column default of users.last_login
                                               at insertion time *)
}.

(* ===================================================================== *)
(** ** The state monad of a handler *)

Definition App (A : Type) : Type := store -> A * store.

Definition ret {A} (a : A) : App A := fun s => (a, s).

Definition bind {A B} (m : App A) (k : A -> App B) : App B :=
  fun s => let '(a, s') := m s in k a s'.

Definition get {A} (f : store -> A) : App A := fun s => (f s, s).

Notation "x <- m ;; k" := (bind m (fun x => k))
  (at level 100, m at next level, right associativity).

Definition exec {A} (m : App A) (s : store) : store := snd (m s).

Definition eval {A} (m : App A) (s : store) : A := fst (m s).

(** *** Database calls awaited one after another

    Where the order of the calls matters, the run also keeps the store as
    each write left it, oldest first. *)

Definition Steps (A : Type) : Type := store -> A * store * list store.

Definition steps_ret {A} (a : A) : Steps A := fun s => (a, s, []).

Definition steps_bind {A B} (m : Steps A) (k : A -> Steps B) : Steps B :=
  fun s =>
    let '(a, s1, j1) := m s in
    let '(b, s2, j2) := k a s1 in
    (b, s2, (j1 ++ j2)%list).

(** an awaited query that only reads *)
Definition reading {A} (m : App A) : Steps A :=
  fun s => let '(a, s') := m s in (a, s', []).

(** an awaited query that writes *)
Definition writing {A} (m : App A) : Steps A :=
  fun s => let '(a, s') := m s in (a, s', [s']).

Notation "x <~ m ;; k" := (steps_bind m (fun x => k))
  (at level 100, m at next level, right associativity).

(** The stores the database went through, one per write. *)
Definition journal {A} (m : Steps A) (s : store) : list store := snd (m s).

(** The run with its journal dropped. *)
Definition settle {A} (m : Steps A) : App A := fun s => fst (m s).

(* ===================================================================== *)
(** ** supabase-js query builder (version 2)

    Every awaited query resolves to [{ data, error }].  A mutation returns
    the rows it touched only when [.select()] is chained after it, which
    is why the server writes [insert(..).select().single()] and
    [update(..)...select().single()] where it wants the row back; without
    [.select()] the response body is empty and [data] is [null].
    [.single()] asks for exactly one row and yields an error for zero or
    for several.  The database itself is taken to be reachable: the only
    errors are the ones a query's own shape produces. *)

Module Postgrest.

Record result (A : Type) := Result { data : option A; error : option string }.
Arguments Result {A} _ _.
Arguments data {A} _.
Arguments error {A} _.

(** a query awaited as it is, carrying rows *)
Definition rows {A} (l : list A) : result (list A) :=
  {| data := Some l; error := None |}.

(** a mutation awaited without [.select()] *)
Definition minimal {A} (_ : list A) : result (list A) :=
  {| data := None; error := None |}.

(** [.single()] *)
Definition single {A} (l : list A) : result A :=
  match l with
  | [r] => {| data := Some r; error := None |}
  | _ => {| data := None;
            error := Some "JSON object requested, multiple (or no) rows returned" |}
  end.

Definition failed {A} (message : string) : result A :=
  {| data := None; error := Some message |}.

End Postgrest.

(** JavaScript truthiness of an object-or-null. *)
Definition truthy {A} (v : option A) : bool :=
  match v with Some _ => true | None => false end.

(** [.lt(column, value)] on a nullable column: NULL compares to nothing. *)
Definition sql_lt (v : option Z) (bound : Z) : Prop :=
  match v with
  | Some t => t < bound
  | None => False
  end.

#[global] Instance sql_lt_dec v bound : Decision (sql_lt v bound).
Proof. destruct v; simpl; apply _. Defined.

Section Queries.
Context `{Runtime}.

(** [from("users").select(..)] with its filters as [P] *)
Definition users_select (P : User.t -> Prop) `{!forall u, Decision (P u)}
    : App (list User.t) :=
  get (fun s => filter P (users s)).

(** [from("users").insert([{ mobile_number, email, name }])] *)
Definition users_insert (mobile_number email name : string) (now : Z)
    : App (list User.t) :=
  fun s =>
    let row := {| User.id := users_seq s;
                  User.mobile_number := mobile_number;
                  User.email := email;
                  User.name := name;
                  User.last_login := last_login_default now |} in
    ([row], set_users_seq (users_seq s + 1) (set_users (users s ++ [row]) s)).

(** [from("users").update(..)] with its filters as [P] *)
Definition users_update (f : User.t -> User.t)
    (P : User.t -> Prop) `{!forall u, Decision (P u)} : App (list User.t) :=
  fun s =>
    (f <$> filter P (users s),
     set_users ((fun u => if decide (P u) then f u else u) <$> users s) s).

(** [from("users").delete()] with its filters as [P] *)
Definition users_delete (P : User.t -> Prop) `{!forall u, Decision (P u)}
    : App (list User.t) :=
  fun s =>
    (filter P (users s), set_users (filter (fun u => ~ P u) (users s)) s).

Definition addresses_insert (user_id : Z) (cols : gmap string string)
    : App (list Address.t) :=
  fun s =>
    let row := {| Address.id := addresses_seq s;
                  Address.user_id := user_id;
                  Address.cols := cols |} in
    ([row],
     set_addresses_seq (addresses_seq s + 1)
       (set_addresses (addresses s ++ [row]) s)).

Definition addresses_update (f : Address.t -> Address.t)
    (P : Address.t -> Prop) `{!forall a, Decision (P a)}
    : App (list Address.t) :=
  fun s =>
    (f <$> filter P (addresses s),
     set_addresses
       ((fun a => if decide (P a) then f a else a) <$> addresses s) s).

(** [from("addresses").update(changes)] with its filters as [P]: the
    columns of [changes] overwrite the stored ones.  An empty [changes]
    object is no update at all: no row is touched and none is returned. *)
Definition addresses_patch (changes : gmap string string)
    (P : Address.t -> Prop) `{!forall a, Decision (P a)}
    : App (list Address.t) :=
  if decide (changes = ∅) then ret []
  else addresses_update
         (fun a => Address.set_cols (changes ∪ Address.cols a) a) P.

Definition addresses_delete (P : Address.t -> Prop)
    `{!forall a, Decision (P a)} : App (list Address.t) :=
  fun s =>
    (filter P (addresses s),
     set_addresses (filter (fun a => ~ P a) (addresses s)) s).

Definition news_letter_select (P : string -> Prop)
    `{!forall e, Decision (P e)} : App (list string) :=
  get (fun s => filter P (news_letter s)).

Definition news_letter_insert (email : string) : App (list string) :=
  fun s => ([email], set_news_letter (news_letter s ++ [email]) s).

End Queries.

(* ===================================================================== *)
(** ** Express requests and responses *)

Module Req.
Record t := Request {
  authorization : option string;     (* req.headers.authorization *)
  params_id : Z;                     (* req.params.id, read as a key *)
  body : gmap string string;         (* req.body *)
  user_id : option Z                 (* req.user_id, set by the guard *)
}.

Definition set_user_id (v : option Z) (r : t) : t :=
  {| authorization := authorization r; params_id := params_id r;
     body := body r; user_id := v |}.
End Req.

Inductive json :=
| ErrorBody (error : string)                                 (* { error } *)
| MessageBody (message : string)                             (* { message } *)
| SessionBody (message token : string) (user : User.t)       (* { message, token, user } *)
| AddressBody (message : string) (address : option Address.t).
                                                             (* { message, address } *)

Record reply := Reply { status : Z; payload : json }.

(** [res.status(code).json(body)] *)
Definition res_status (code : Z) (b : json) : App reply :=
  ret {| status := code; payload := b |}.

(** [res.json(body)] *)
Definition res_json (b : json) : App reply := res_status 200 b.

(** Lines written to the console by the cleanup job:
    [console.error(text, error)] and
    [console.log(`Deleted ${count} inactive users.`)]. *)
Inductive console :=
| ConsoleError (text message : string)
| ConsoleLogDeleted (count : nat).

(** Columns that POST /address copies from the body. *)
Definition address_insert_columns : list string :=
  ["full_name"; "mobile_number"; "address_line1"; "address_line2";
   "landmark"; "pincode"; "city"; "state"; "type"].

(** Columns that PUT /address/:id copies from the body. *)
Definition address_update_columns : list string :=
  ["full_name"; "address_line1"; "address_line2";
   "landmark"; "pincode"; "city"; "state"; "type"].

(** The object literal built from destructured body fields; a field that
    is [undefined] is left out when the object is serialised. *)
Definition pick (columns : list string) (body : gmap string string)
    : gmap string string :=
  filter (fun kv => kv.1 ∈ columns) body.

(* ===================================================================== *)
(** ** server.js *)

Section Server.
Context `{Runtime}.

(** The token [generateToken(user)] returns. *)
Definition generateToken (now : Z) (user : User.t) : string :=
  JWT.sign (Some (User.id user)) (Some (User.mobile_number user))
           JWT_SECRET JWT.expiresIn_7d now.

(** [generateToken(user)] as a call: it throws when [jwt.sign] does, that
    is when [JWT_SECRET] is empty or unset. *)
Definition generateToken_or_throw (now : Z) (user : User.t) : option string :=
  JWT.sign_or_throw (Some (User.id user)) (Some (User.mobile_number user))
                    JWT_SECRET JWT.expiresIn_7d now.

(** [req.headers.authorization?.split(" ")[1]] *)
Definition bearer (req : Req.t) : option string :=
  hdr ← Req.authorization req; str_split " "%char hdr !! 1%nat.

(** [authenticateToken(req, res, next)] *)
Definition authenticateToken (now : Z) (req : Req.t)
    (next : Req.t -> App reply) : App reply :=
  let token := bearer req in
  if falsy token
  then res_status 401 (ErrorBody "Access Denied. No token provided.")
  else
    match JWT.verify (text token) JWT_SECRET now with
    | inr decoded =>
        r <- match JWT.user_id decoded with
             | Some uid =>
                 l <- users_select (fun u => User.id u = uid) ;;
                 ret (Postgrest.single l)
             | None =>
                 ret (Postgrest.failed "invalid input syntax")
             end ;;
        if truthy (Postgrest.error r) || negb (truthy (Postgrest.data r))
        then res_status 403 (ErrorBody "User not found or token invalid.")
        else next (Req.set_user_id (JWT.user_id decoded) req)
    | inl _ =>
        res_status 403 (ErrorBody "Invalid or Expired Token.")
    end.

(** [app.post("/signup", ..)] *)
Definition post_signup (now : Z) (req : Req.t) : App reply :=
  let mobile_number := Req.body req !! "mobile_number" in
  let email := Req.body req !! "email" in
  let name := Req.body req !! "name" in
  if falsy mobile_number || falsy email || falsy name
  then res_status 400 (ErrorBody "All fields are required")
  else
    l <- users_select (fun u => User.mobile_number u = text mobile_number) ;;
    let existingUser := Postgrest.data (Postgrest.single l) in
    if truthy existingUser
    then res_status 400 (ErrorBody "User already exists. Please log in.")
    else
      ins <- users_insert (text mobile_number) (text email) (text name) now ;;
      let r := Postgrest.single ins in
      match Postgrest.error r, Postgrest.data r with
      | Some message, _ => res_status 500 (ErrorBody message)
      | None, Some newUser =>
          match generateToken_or_throw now newUser with
          | Some token =>
              res_status 201 (SessionBody "Signup successful" token newUser)
          | None => res_status 500 (ErrorBody "Server error")    (* catch *)
          end
      | None, None => res_status 500 (ErrorBody "Server error")
      end.

(** [app.post("/login", ..)] *)
Definition post_login (now : Z) (req : Req.t) : App reply :=
  let mobile_number := Req.body req !! "mobile_number" in
  if falsy mobile_number
  then res_status 400 (ErrorBody "Mobile number is required")
  else
    l <- users_select (fun u => User.mobile_number u = text mobile_number) ;;
    match Postgrest.data (Postgrest.single l) with
    | None => res_status 404 (ErrorBody "User not found. Please sign up.")
    | Some user =>
        _ <- users_update (User.set_last_login (Some now))
               (fun u => User.id u = User.id user) ;;
        match generateToken_or_throw now user with
        | Some token => res_json (SessionBody "Login successful" token user)
        | None => res_status 500 (ErrorBody "Server error")      (* catch *)
        end
    end.

(** The handler of [app.post("/address", authenticateToken, ..)].
    [addresses.user_id] is a NOT NULL column: a request that carries no
    [user_id] (the guard always sets one) makes the insert fail. *)
Definition add_address (req : Req.t) : App reply :=
  r <- match Req.user_id req with
       | Some uid =>
           ins <- addresses_insert uid
                    (pick address_insert_columns (Req.body req)) ;;
           ret (Postgrest.single ins)
       | None => ret (Postgrest.failed "null value in column user_id")
       end ;;
  match Postgrest.error r with
  | Some message => res_status 500 (ErrorBody message)
  | None =>
      let address := Postgrest.data r in
      res_status 201 (AddressBody "Address added successfully" address)
  end.

(** The handler of [app.put("/address/:id", authenticateToken, ..)] *)
Definition edit_address (req : Req.t) : App reply :=
  let id := Req.params_id req in
  let changes := pick address_update_columns (Req.body req) in
  upd <- addresses_patch changes
           (fun a => Address.id a = id /\ Some (Address.user_id a) = Req.user_id req) ;;
  let r := Postgrest.single upd in
  match Postgrest.error r with
  | Some _ =>
      res_status 404 (ErrorBody "Address not found or unauthorized access.")
  | None =>
      let updatedAddress := Postgrest.data r in
      res_json (AddressBody "Address updated successfully" updatedAddress)
  end.

(** The handler of [app.delete("/address/:id", authenticateToken, ..)];
    the delete is awaited without [.select()]. *)
Definition remove_address (req : Req.t) : App reply :=
  let id := Req.params_id req in
  del <- addresses_delete
           (fun a => Address.id a = id /\ Some (Address.user_id a) = Req.user_id req) ;;
  let r := Postgrest.minimal del in
  if truthy (Postgrest.error r) || negb (truthy (Postgrest.data r))
  then res_status 404 (ErrorBody "Address not found or unauthorized")
  else res_json (MessageBody "Address deleted successfully").

(** The three protected address routes, guard first. *)
Definition post_address (now : Z) (req : Req.t) : App reply :=
  authenticateToken now req add_address.

Definition put_address (now : Z) (req : Req.t) : App reply :=
  authenticateToken now req edit_address.

Definition delete_address (now : Z) (req : Req.t) : App reply :=
  authenticateToken now req remove_address.

(** [app.post("/subscribe", ..)] *)
Definition post_subscribe (req : Req.t) : App reply :=
  let email := Req.body req !! "email" in
  if falsy email
  then res_status 400 (MessageBody "Email is required")
  else
    l <- news_letter_select (fun e => e = text email) ;;
    let existingEmail := Postgrest.data (Postgrest.single l) in
    if truthy existingEmail
    then res_status 409 (MessageBody "Already subscribed")
    else
      ins <- news_letter_insert (text email) ;;
      let insertError := Postgrest.error (Postgrest.minimal ins) in
      if truthy insertError
      then res_status 500 (MessageBody "Internal server error")
      else res_status 201 (MessageBody "Subscribed successfully").

(** [threeMonthsAgo] of [cleanupInactiveUsers]: [new Date()] moved back
    with [setMonth(getMonth() - 3)]; [toISOString] names the same
    instant. *)
Definition threeMonthsAgo (now : Z) : Z :=
  JSDate.setMonth LocalTZA now (JSDate.getMonth LocalTZA now - 3).

(** [cleanupInactiveUsers()], query by query; the value is what was
    written to the console. *)
Definition cleanupInactiveUsers_steps (now : Z) : Steps (list console) :=
  l <~ reading
         (users_select
            (fun u => sql_lt (User.last_login u) (threeMonthsAgo now))) ;;
  let r := Postgrest.rows l in
  match Postgrest.error r, Postgrest.data r with
  | Some message, _ =>
      steps_ret [ConsoleError "Error fetching inactive users:" message]
  | None, None => steps_ret []
  | None, Some inactiveUsers =>
      if (0 <? Z.of_nat (length inactiveUsers))
      then
        let userIds := User.id <$> inactiveUsers in
        (* Delete addresses first (since they reference users) *)
        _ <~ writing (addresses_delete (fun a => Address.user_id a ∈ userIds)) ;;
        (* Delete users *)
        _ <~ writing (users_delete (fun u => User.id u ∈ userIds)) ;;
        steps_ret [ConsoleLogDeleted (length inactiveUsers)]
      else steps_ret []
  end.

(** One run of the job as a step of the store. *)
Definition cleanupInactiveUsers (now : Z) : App (list console) :=
  settle (cleanupInactiveUsers_steps now).

End Server.

(* ===================================================================== *)
(** ** The rest of the routes *)

(** What GET /user answers with: [{ user }], the row with the user's
    addresses embedded in it, or [{ error }]. *)
Inductive profile :=
| ProfileError (error : string)
| ProfileBody (user : User.t) (addresses : list Address.t).

Record profile_reply := ProfileReply {
  profile_status : Z;
  profile_payload : profile
}.

Section ServerRest.
Context `{Runtime}.

(** The handler of [app.get("/user", authenticateToken, ..)]:
    [select("*, addresses(*)")] embeds in each user row the address rows
    that reference it. *)
Definition fetch_user (req : Req.t) : App profile_reply :=
  r <- match Req.user_id req with
       | Some uid =>
           l <- users_select (fun u => User.id u = uid) ;;
           all <- get addresses ;;
           ret (Postgrest.single
                  ((fun u =>
                      (u, filter (fun a => Address.user_id a = User.id u) all))
                     <$> l))
       | None => ret (Postgrest.failed "invalid input syntax")
       end ;;
  match Postgrest.error r, Postgrest.data r with
  | None, Some (user, embedded) =>
      ret {| profile_status := 200; profile_payload := ProfileBody user embedded |}
  | _, _ =>
      ret {| profile_status := 404; profile_payload := ProfileError "User not found" |}
  end.

(** [app.post("/login", ..)] as the earlier copy of the server has it:
    the same lookup and reply, without the [last_login] update. *)
Definition post_login_earlier (now : Z) (req : Req.t) : App reply :=
  let mobile_number := Req.body req !! "mobile_number" in
  if falsy mobile_number
  then res_status 400 (ErrorBody "Mobile number is required")
  else
    l <- users_select (fun u => User.mobile_number u = text mobile_number) ;;
    match Postgrest.data (Postgrest.single l) with
    | None => res_status 404 (ErrorBody "User not found. Please sign up.")
    | Some user =>
        match generateToken_or_throw now user with
        | Some token => res_json (SessionBody "Login successful" token user)
        | None => res_status 500 (ErrorBody "Server error")      (* catch *)
        end
    end.

End ServerRest.

(* ===================================================================== *)
(** ** Properties of a store, and the events that change it *)

(** Every address row names the id of a user row. *)
Definition references_ok (s : store) : Prop :=
  Forall (fun a => Address.user_id a ∈ (User.id <$> users s)) (addresses s).

(** [id] is the primary key of both tables. *)
Definition primary_keys (s : store) : Prop :=
  NoDup (User.id <$> users s) /\ NoDup (Address.id <$> addresses s).

(** No two users share a mobile number. *)
Definition unique_mobile (s : store) : Prop :=
  NoDup (User.mobile_number <$> users s).

(** No two newsletter rows share an email. *)
Definition unique_email (s : store) : Prop := NoDup (news_letter s).

(** Ids are handed out by the sequences, so every stored id is below the
    next value of its sequence. *)
Definition sequences_ahead (s : store) : Prop :=
  Forall (fun u => User.id u < users_seq s) (users s) /\
  Forall (fun a => Address.id a < addresses_seq s) (addresses s).

(** The shape of a store that the schema and the routes maintain. *)
Definition well_formed (s : store) : Prop :=
  primary_keys s /\ unique_mobile s /\ unique_email s /\
  references_ok s /\ sequences_ahead s.

(** The database before any request. *)
Definition empty_store : store :=
  {| users := []; addresses := []; news_letter := [];
     users_seq := 1; addresses_seq := 1 |}.

(** Number of newsletter rows holding [email]. *)
Definition subscriptions (email : string) (s : store) : nat :=
  length (filter (fun e => e = email) (news_letter s)).

(** The [last_login] values stored for user [uid]. *)
Definition recorded_last_login (uid : Z) (s : store) : list (option Z) :=
  User.last_login <$> filter (fun u => User.id u = uid) (users s).

(** The id of the user a session reply (signup, login) is about. *)
Definition session_user (r : reply) : option Z :=
  match payload r with
  | SessionBody _ _ user => Some (User.id user)
  | _ => None
  end.

Section Events.
Context `{Runtime}.

(** The request passes the session guard as user [uid]. *)
Definition authenticated (now : Z) (req : Req.t) (s : store) (uid : Z) : Prop :=
  falsy (bearer req) = false /\
  exists decoded,
    JWT.verify (text (bearer req)) JWT_SECRET now = inr decoded /\
    JWT.user_id decoded = Some uid /\
    uid ∈ (User.id <$> users s).

(** Everything that writes to the store: the routes, and one firing of
    the weekly timer. *)
Inductive event :=
| Signup (now : Z) (req : Req.t)
| Login (now : Z) (req : Req.t)
| PostAddress (now : Z) (req : Req.t)
| PutAddress (now : Z) (req : Req.t)
| DeleteAddress (now : Z) (req : Req.t)
| Subscribe (req : Req.t)
| Cleanup (now : Z).

Definition run (e : event) (s : store) : store :=
  match e with
  | Signup now req => exec (post_signup now req) s
  | Login now req => exec (post_login now req) s
  | PostAddress now req => exec (post_address now req) s
  | PutAddress now req => exec (put_address now req) s
  | DeleteAddress now req => exec (delete_address now req) s
  | Subscribe req => exec (post_subscribe req) s
  | Cleanup now => exec (cleanupInactiveUsers now) s
  end.

(** Stores the server can bring about, one event at a time. *)
Inductive reachable : store -> Prop :=
| reachable_empty : reachable empty_store
| reachable_run (e : event) (s : store) : reachable s -> reachable (run e s).

(** [k] months before [now], counted the way the job counts its three. *)
Definition monthsAgo (k : Z) (now : Z) : Z :=
  JSDate.setMonth LocalTZA now (JSDate.getMonth LocalTZA now - k).

(** The users one run of the job selects. *)
Definition inactiveUsers (now : Z) (s : store) : list User.t :=
  filter (fun u => sql_lt (User.last_login u) (threeMonthsAgo now)) (users s).

End Events.

(* ===================================================================== *)
(** ** A concrete runtime

    A codec with a readable wire format (a tag letter followed by the
    binary digits of the token's code), and the runtime built on it. *)

Module Fixture.

#[global] Instance payload_eq_dec : EqDecision JWT.payload.
Proof. solve_decision. Defined.

#[global] Instance jws_eq_dec : EqDecision JWT.jws.
Proof. solve_decision. Defined.

#[global] Instance jws_countable : Countable JWT.jws.
Proof.
  refine (inj_countable'
    (fun j => (JWT.user_id (JWT.claims j), JWT.mobile (JWT.claims j),
               JWT.iat (JWT.claims j), JWT.exp (JWT.claims j), JWT.key j))
    (fun '(u, m, i, e, k) =>
       JWT.Jws (JWT.Payload u m i e) k) _).
  intros [[] ?]; reflexivity.
Defined.

Fixpoint digits (p : positive) : string :=
  match p with
  | xH => EmptyString
  | xO q => String "0" (digits q)
  | xI q => String "1" (digits q)
  end.

Fixpoint undigits (s : string) : option positive :=
  match s with
  | EmptyString => Some xH
  | String c rest =>
      q ← undigits rest;
      if decide (c = "0"%char) then Some (xO q)
      else if decide (c = "1"%char) then Some (xI q)
      else None
  end.

Definition wire_encode (j : JWT.jws) : string :=
  String "J" (digits (encode j)).

Definition wire_decode (s : string) : option JWT.jws :=
  match s with
  | String "J" rest => p ← undigits rest; decode p
  | _ => None
  end.

Definition codec : JWT.Codec :=
  {| JWT.encode := wire_encode; JWT.decode := wire_decode |}.

Definition runtime : Runtime :=
  {| JWT_SECRET := "s3cr3t";
     LocalTZA := fun _ _ => 0;
     jwt_codec := codec;
     last_login_default := fun _ => None |}.

(** 2026-11-03T00:00:00Z *)
Definition today : Z := 1793664000000.

Definition asha : User.t :=
  {| User.id := 1; User.mobile_number := "9876543210";
     User.email := "asha@example.com"; User.name := "Asha";
     User.last_login := Some (today - 10 * JSDate.msPerDay) |}.

Definition ravi : User.t :=
  {| User.id := 2; User.mobile_number := "9123456780";
     User.email := "ravi@example.com"; User.name := "Ravi";
     User.last_login := None |}.

Definition home : Address.t :=
  {| Address.id := 7; Address.user_id := 1;
     Address.cols := {[ "city" := "Pune" ]} |}.

Definition db : store :=
  {| users := [asha; ravi]; addresses := [home];
     news_letter := ["news@example.com"];
     users_seq := 3; addresses_seq := 8 |}.

(** The lifecycle scenario: U1 last logged in four months ago, U2 one
    month ago, A1 belongs to U1 and A2 to U2. *)
Definition U1 : User.t :=
  {| User.id := 11; User.mobile_number := "9000000001";
     User.email := "u1@example.com"; User.name := "U1";
     User.last_login := Some (@monthsAgo runtime 4 today) |}.

Definition U2 : User.t :=
  {| User.id := 12; User.mobile_number := "9000000002";
     User.email := "u2@example.com"; User.name := "U2";
     User.last_login := Some (@monthsAgo runtime 1 today) |}.

Definition A1 : Address.t :=
  {| Address.id := 21; Address.user_id := 11;
     Address.cols := {[ "city" := "Indore" ]} |}.

Definition A2 : Address.t :=
  {| Address.id := 22; Address.user_id := 12;
     Address.cols := {[ "city" := "Bhopal" ]} |}.

Definition lifecycle_db : store :=
  {| users := [U1; U2]; addresses := [A1; A2]; news_letter := [];
     users_seq := 13; addresses_seq := 23 |}.

(** A request carrying the token issued to [user] at [issued]. *)
Definition request_of (issued : Z) (user : User.t) (id : Z)
    (body : gmap string string) : Req.t :=
  {| Req.authorization :=
       Some ("Bearer " ++ @generateToken runtime issued user)%string;
     Req.params_id := id; Req.body := body; Req.user_id := None |}.

(** Asha logging in. *)
Definition login_request : Req.t :=
  {| Req.authorization := None; Req.params_id := 0;
     Req.body := {[ "mobile_number" := "9876543210" ]};
     Req.user_id := None |}.

(** A subscription for an email the table already holds. *)
Definition subscribe_request : Req.t :=
  {| Req.authorization := None; Req.params_id := 0;
     Req.body := {[ "email" := "news@example.com" ]};
     Req.user_id := None |}.

(** A signup that reuses Asha's mobile number. *)
Definition duplicate_signup : Req.t :=
  {| Req.authorization := None; Req.params_id := 0;
     Req.body := {[ "mobile_number" := "9876543210";
                    "email" := "other@example.com";
                    "name" := "Other" ]};
     Req.user_id := None |}.

(** A signup with a mobile number nobody has yet. *)
Definition fresh_signup : Req.t :=
  {| Req.authorization := None; Req.params_id := 0;
     Req.body := {[ "mobile_number" := "9000000009";
                    "email" := "mira@example.com";
                    "name" := "Mira" ]};
     Req.user_id := None |}.


(** A subscription for an email the table does not hold. *)
Definition fresh_subscribe : Req.t :=
  {| Req.authorization := None; Req.params_id := 0;
     Req.body := {[ "email" := "mira@example.com" ]};
     Req.user_id := None |}.

(** Asha sending only a field PUT /address/:id does not store. *)
Definition edit_request_without_fields : Req.t :=
  request_of today asha 7 {[ "mobile_number" := "9999999999" ]}.

(** The zone of a host in New York during 2026: four hours behind UTC
    from 2026-03-08T07:00Z to 2026-11-01T06:00Z, five hours behind
    otherwise.  A local time that the change of offset skips or repeats
    is read with the offset before the change. *)
Definition new_york_2026 (t : Z) (isUTC : bool) : Z :=
  let msPerHour := 3600000 in
  if isUTC
  then if (1772953200000 <=? t) && (t <? 1793512800000)
       then -4 * msPerHour else -5 * msPerHour
  else if (1772938800000 <=? t) && (t <? 1793498400000)
       then -4 * msPerHour else -5 * msPerHour.

Definition runtime_new_york : Runtime :=
  {| JWT_SECRET := "s3cr3t";
     LocalTZA := new_york_2026;
     jwt_codec := codec;
     last_login_default := fun _ => None |}.

(** A host started without [JWT_SECRET]. *)
Definition runtime_without_secret : Runtime :=
  {| JWT_SECRET := EmptyString;
     LocalTZA := fun _ _ => 0;
     jwt_codec := codec;
     last_login_default := fun _ => None |}.

End Fixture.

(* ===================================================================== *)
(** * Facts *)

(** ** Calendar arithmetic *)

Module JSDateFacts.
Import JSDate.

Ltac split_tests :=
  repeat match goal with
    | |- context [?a =? ?b] => destruct (Z.eqb_spec a b)
    | |- context [?a <=? ?b] => destruct (Z.leb_spec a b)
    | |- context [?a <? ?b] => destruct (Z.ltb_spec a b)
    end; cbn [negb].

Ltac eval_MonthStart :=
  repeat match goal with
    | |- context [MonthStart ?m ?leap] =>
        let v := eval vm_compute in (MonthStart m leap) in
        change (MonthStart m leap) with v
    end.

Lemma DayFromYear_succ y : DayFromYear (y + 1) = DayFromYear y + DaysInYear y.
Proof.
  unfold DayFromYear, DaysInYear; split_tests; Z.div_mod_to_equations; lia.
Qed.

Lemma DaysInYear_cases y : DaysInYear y = 365 \/ DaysInYear y = 366.
Proof. unfold DaysInYear; split_tests; auto. Qed.

(** The year of a day is the one whose first day is the last not after it. *)
Lemma YearFromDay_spec d :
  DayFromYear (YearFromDay d) <= d < DayFromYear (YearFromDay d + 1).
Proof.
  unfold YearFromDay; split_tests; unfold DayFromYear in *;
    Z.div_mod_to_equations; lia.
Qed.

Lemma DayWithinYear_range t :
  0 <= DayWithinYear t < 365 + InLeapYear t.
Proof.
  unfold DayWithinYear, InLeapYear, YearFromTime.
  pose proof (YearFromDay_spec (Day t)) as Hy.
  rewrite DayFromYear_succ in Hy.
  destruct (DaysInYear_cases (YearFromDay (Day t))) as [E|E]; rewrite E in *;
    simpl; lia.
Qed.

Lemma MonthFromTime_range t : 0 <= MonthFromTime t <= 11.
Proof. unfold MonthFromTime; cbv zeta; split_tests; lia. Qed.

Lemma DateFromTime_range t : 1 <= DateFromTime t <= 31.
Proof.
  pose proof (DayWithinYear_range t) as Hd.
  unfold DateFromTime, MonthFromTime; cbv zeta.
  assert (InLeapYear t = 0 \/ InLeapYear t = 1) as [L|L]
    by (unfold InLeapYear; split_tests; auto);
    rewrite L in *; split_tests; cbn [MonthStart]; lia.
Qed.

(** Reassembling the fields of a time value gives back its day. *)
Lemma MakeDay_fields t :
  MakeDay (YearFromTime t) (MonthFromTime t) (DateFromTime t) = Day t.
Proof.
  pose proof (MonthFromTime_range t) as Hm.
  unfold MakeDay; cbv zeta.
  rewrite (Z.div_small (MonthFromTime t) 12), (Z.mod_small (MonthFromTime t) 12) by lia.
  rewrite Z.add_0_r.
  change (if DaysInYear (YearFromTime t) =? 366 then 1 else 0) with (InLeapYear t).
  unfold DateFromTime, DayWithinYear. lia.
Qed.

(** A month is between 28 and 31 days long, whatever the carry. *)
Lemma MakeDay_month_succ y m d :
  28 <= MakeDay y (m + 1) d - MakeDay y m d <= 31.
Proof.
  unfold MakeDay; cbv zeta.
  pose proof (Z.mod_pos_bound m 12 ltac:(lia)) as Hr.
  pose proof (Z.div_mod m 12 ltac:(lia)) as Hq.
  destruct (Z.eq_dec (m mod 12) 11) as [E|E].
  - assert ((m + 1) / 12 = m / 12 + 1) as -> by (Z.div_mod_to_equations; lia).
    assert ((m + 1) mod 12 = 0) as -> by (Z.div_mod_to_equations; lia).
    rewrite E, Z.add_assoc, DayFromYear_succ.
    destruct (DaysInYear_cases (y + m / 12)) as [D|D]; rewrite D;
      split_tests; cbn [MonthStart]; lia.
  - assert ((m + 1) / 12 = m / 12) as -> by (Z.div_mod_to_equations; lia).
    assert ((m + 1) mod 12 = m mod 12 + 1) as -> by (Z.div_mod_to_equations; lia).
    assert (m mod 12 = 0 \/ m mod 12 = 1 \/ m mod 12 = 2 \/ m mod 12 = 3 \/
            m mod 12 = 4 \/ m mod 12 = 5 \/ m mod 12 = 6 \/ m mod 12 = 7 \/
            m mod 12 = 8 \/ m mod 12 = 9 \/ m mod 12 = 10) as Hc by lia.
    destruct (DaysInYear_cases (y + m / 12)) as [D|D]; rewrite D;
      generalize (DayFromYear (y + m / 12)); intros F;
      split_tests; try lia;
      repeat (destruct Hc as [Hc|Hc]; [rewrite Hc; eval_MonthStart; lia|]);
      rewrite Hc; eval_MonthStart; lia.
Qed.

Lemma MakeDay_month_gap y d m k :
  0 < k -> 28 * k <= MakeDay y (m + k) d - MakeDay y m d.
Proof.
  intros Hk. replace k with (Z.succ (k - 1)) by lia.
  assert (0 <= k - 1) as Hk' by lia. revert Hk'.
  generalize (k - 1). clear k Hk.
  apply natlike_ind.
  - pose proof (MakeDay_month_succ y m d). change (Z.succ 0) with 1. lia.
  - intros k Hk IH.
    pose proof (MakeDay_month_succ y (m + Z.succ k) d) as Hs.
    replace (m + Z.succ (Z.succ k)) with (m + Z.succ k + 1) by lia. lia.
Qed.

Lemma MakeDay_month_lt y d m k :
  0 < k -> MakeDay y m d < MakeDay y (m + k) d.
Proof. intros Hk. pose proof (MakeDay_month_gap y d m k Hk). lia. Qed.

(** [setMonth] is strictly increasing in the month it is given, on a host
    whose offsets differ by less than four weeks. *)
Lemma setMonth_lt tza V t m1 m2 :
  varies_within tza V -> V < 28 * msPerDay ->
  m1 < m2 -> setMonth tza t m1 < setMonth tza t m2.
Proof.
  intros Hzone HV Hm. unfold setMonth, MakeDate, UTC; cbv zeta.
  pose proof (MakeDay_month_gap (YearFromTime (LocalTime tza t))
                (DateFromTime (LocalTime tza t)) m1 (m2 - m1) ltac:(lia)) as Hd.
  replace (m1 + (m2 - m1)) with m2 in Hd by lia.
  match goal with
  | |- ?x1 - tza ?x1 false < ?x2 - tza ?x2 false =>
      pose proof (Hzone x2 false x1 false)
  end.
  unfold msPerDay in *. nia.
Qed.

(** Setting the month a date already has goes to local time and back. *)
Lemma setMonth_getMonth tza t :
  setMonth tza t (getMonth tza t) = UTC tza (LocalTime tza t).
Proof.
  unfold setMonth, getMonth, MakeDate; cbv zeta.
  rewrite MakeDay_fields. unfold Day, TimeWithinDay. f_equal.
  pose proof (Z.div_mod (LocalTime tza t) msPerDay ltac:(unfold msPerDay; lia)).
  lia.
Qed.

End JSDateFacts.

(* ===================================================================== *)
(** ** Lists of rows *)

Section Rows.
Context {A K : Type} `{EqDecision K} (f : A -> K).

(** Filtering on a key that no row has selects nothing. *)
Lemma filter_key_absent (l : list A) (k : K) :
  k ∉ (f <$> l) -> filter (fun x => f x = k) l = [].
Proof.
  induction l as [|x l IH]; intros Hk; [reflexivity|].
  rewrite fmap_cons, not_elem_of_cons in Hk. destruct Hk as [Hne Hk].
  rewrite filter_cons_False by congruence. auto.
Qed.

(** Filtering on a key of a table without duplicate keys selects the
    one row that has it. *)
Lemma filter_key_unique (l : list A) (k : K) :
  NoDup (f <$> l) -> k ∈ (f <$> l) ->
  exists x, filter (fun x => f x = k) l = [x] /\ x ∈ l /\ f x = k.
Proof.
  induction l as [|x l IH]; intros Hnd Hk.
  - by apply elem_of_nil in Hk.
  - rewrite fmap_cons in Hnd, Hk. apply NoDup_cons in Hnd as [Hx Hnd].
    destruct (decide (f x = k)) as [E|E].
    + exists x. rewrite filter_cons_True by done.
      rewrite filter_key_absent by (by rewrite <- E).
      repeat split; [constructor | done].
    + apply elem_of_cons in Hk as [Hk|Hk]; [congruence|].
      destruct (IH Hnd Hk) as (y & Hy & Hin & Hfy).
      exists y. rewrite filter_cons_False by done.
      repeat split; [done | by constructor | done].
Qed.

(** Two rows of such a table with the same key are the same row. *)
Lemma key_inj (l : list A) (x y : A) :
  NoDup (f <$> l) -> x ∈ l -> y ∈ l -> f x = f y -> x = y.
Proof.
  induction l as [|z l IH]; intros Hnd Hx Hy E.
  - by apply elem_of_nil in Hx.
  - rewrite fmap_cons in Hnd. apply NoDup_cons in Hnd as [Hz Hnd].
    apply elem_of_cons in Hx as [->|Hx]; apply elem_of_cons in Hy as [->|Hy].
    + done.
    + exfalso. apply Hz. rewrite E. by apply list_elem_of_fmap_2.
    + exfalso. apply Hz. rewrite <- E. by apply list_elem_of_fmap_2.
    + by apply IH.
Qed.

(** Removing rows that match nothing leaves the table as it was. *)
Lemma filter_not_none (P : A -> Prop) `{!forall x, Decision (P x)} (l : list A) :
  (forall x, x ∈ l -> ~ P x) -> filter (fun x => ~ P x) l = l.
Proof.
  induction l as [|x l IH]; intros Hl; [reflexivity|].
  rewrite filter_cons_True by (apply Hl; constructor).
  f_equal. apply IH. intros y Hy. apply Hl. by constructor.
Qed.

End Rows.

(* ===================================================================== *)
(** ** The session guard *)

Section Guard.
Context `{Runtime}.

(** Why a token can fail verification: it is malformed, it does not
    check under the secret, or its window has closed. *)
Lemma verify_fails_iff (token : string) (now : Z) :
  (exists e, JWT.verify token JWT_SECRET now = inl e) <->
  JWT.decode token = None \/
  (exists t, JWT.decode token = Some t /\
     (JWT.key t <> JWT_SECRET \/
      exists e, JWT.exp (JWT.claims t) = Some e /\ e <= now / 1000)).
Proof.
  unfold JWT.verify. destruct (JWT.decode token) as [t|].
  - case_bool_decide as Hk; cbn [negb].
    + destruct (JWT.exp (JWT.claims t)) as [e|] eqn:He.
      * destruct (Z.leb_spec e (now / 1000)); split.
        -- intros _. right. exists t. split; [done|]. right. eauto.
        -- eauto.
        -- intros [? ?]. discriminate.
        -- intros [?|(t' & Ht' & Hbad)]; [discriminate|].
           injection Ht' as <-. destruct Hbad as [?|(e' & He' & ?)]; [done|].
           rewrite He in He'. injection He' as <-. lia.
      * split.
        -- intros [? ?]. discriminate.
        -- intros [?|(t' & Ht' & Hbad)]; [discriminate|].
           injection Ht' as <-. destruct Hbad as [?|(e' & He' & ?)]; [done|].
           congruence.
    + split; [|eauto]. intros _. right. exists t. eauto.
  - split; eauto.
Qed.

(** A request that passes the guard reaches the handler with the
    token's user id attached. *)
Lemma guard_pass now req s uid (next : Req.t -> App reply) :
  primary_keys s -> authenticated now req s uid ->
  authenticateToken now req next s = next (Req.set_user_id (Some uid) req) s.
Proof.
  intros [Hpk _] (Htok & decoded & Hv & Hu & Hin).
  unfold authenticateToken; cbv zeta. rewrite Htok, Hv, Hu.
  unfold bind, users_select, get, ret.
  destruct (filter_key_unique User.id (users s) uid Hpk Hin) as (u & -> & _).
  reflexivity.
Qed.

End Guard.

(** *** Reading the authorization header *)

Lemma str_split_no_sep (sep : ascii) (s : string) :
  occurs sep s = false -> str_split sep s = [s].
Proof.
  induction s as [|c s IH]; [reflexivity|]. cbn.
  intros [Hc Hs]%orb_false_elim. apply bool_decide_eq_false in Hc.
  destruct (decide (c = sep)); [done|]. by rewrite IH.
Qed.

Lemma str_split_two (sep : ascii) (a b : string) :
  occurs sep a = false -> occurs sep b = false ->
  str_split sep (a ++ String sep b) = [a; b].
Proof.
  intros Ha Hb. induction a as [|c a IH].
  - change (str_split sep (String sep b) = [EmptyString; b]). cbn.
    destruct (decide (sep = sep)); [|done]. by rewrite str_split_no_sep.
  - change (str_split sep (String c (a ++ String sep b)) = [String c a; b]).
    cbn in Ha |- *. apply orb_false_elim in Ha as [Hc Ha].
    apply bool_decide_eq_false in Hc.
    destruct (decide (c = sep)); [done|]. by rewrite IH.
Qed.

(** A header of the form [<scheme> <token>] carries the token. *)
Lemma bearer_scheme (req : Req.t) (scheme token : string) :
  Req.authorization req = Some (scheme ++ String " " token) ->
  occurs " " scheme = false -> occurs " " token = false ->
  bearer req = Some token.
Proof.
  intros Hh Hs Ht. unfold bearer. rewrite Hh. cbn.
  by rewrite str_split_two.
Qed.

(** No header, or a header of one word, carries none. *)
Lemma bearer_none (req : Req.t) :
  Req.authorization req = None \/
  (exists w, Req.authorization req = Some w /\ occurs " " w = false) ->
  bearer req = None.
Proof.
  unfold bearer. intros [->|(w & -> & Hw)]; [reflexivity|]. cbn.
  by rewrite str_split_no_sep.
Qed.

Section GuardOutcomes.
Context `{Runtime}.

(** C1. The session guard resolves a protected request in exactly one of
    four ways, decided by three successive tests: no bearer token in the
    authorization header gives 401; a token that fails verification gives
    403 "Invalid or Expired Token."; a verified token whose user id names
    no user row gives 403 "User not found or token invalid."; otherwise
    the handler runs on the request with the token's user id as its
    [user_id] and its header, path parameter and body as they came in.
    In the three failure cases the reply does not depend on the handler
    and the store is untouched.  The tests leave no fifth case: a header
    has a token or not, verification fails or yields claims, and the
    claims name an existing user or they do not. *)
Theorem session_guard_outcomes now req (next : Req.t -> App reply) s :
  primary_keys s ->
  let token := bearer req in
  (falsy token = true ->
     authenticateToken now req next s =
       ({| status := 401;
           payload := ErrorBody "Access Denied. No token provided." |}, s)) /\
  (falsy token = false ->
     forall e, JWT.verify (text token) JWT_SECRET now = inl e ->
     authenticateToken now req next s =
       ({| status := 403; payload := ErrorBody "Invalid or Expired Token." |}, s)) /\
  (falsy token = false ->
     forall decoded, JWT.verify (text token) JWT_SECRET now = inr decoded ->
     (forall uid, JWT.user_id decoded = Some uid -> uid ∉ (User.id <$> users s)) ->
     authenticateToken now req next s =
       ({| status := 403;
           payload := ErrorBody "User not found or token invalid." |}, s)) /\
  (falsy token = false ->
     forall decoded uid, JWT.verify (text token) JWT_SECRET now = inr decoded ->
     JWT.user_id decoded = Some uid -> uid ∈ (User.id <$> users s) ->
     authenticateToken now req next s =
       next {| Req.authorization := Req.authorization req;
               Req.params_id := Req.params_id req;
               Req.body := Req.body req;
               Req.user_id := Some uid |} s) /\
  (forall decoded,
     (forall uid, JWT.user_id decoded = Some uid -> uid ∉ (User.id <$> users s)) \/
     (exists uid, JWT.user_id decoded = Some uid /\ uid ∈ (User.id <$> users s))).
Proof.
  intros Hpk token.
  split; [|split; [|split; [|split]]]; cycle 4.
  { intros decoded. destruct (JWT.user_id decoded) as [uid|]; [|by left].
    destruct (decide (uid ∈ User.id <$> users s)); [right; eauto|].
    left. by intros ? [= <-]. }
  all: repeat split.
  - intros Hf. unfold authenticateToken; cbv zeta. fold token. by rewrite Hf.
  - intros Hf e He. unfold authenticateToken; cbv zeta. fold token.
    by rewrite Hf, He.
  - intros Hf decoded Hv Hno. unfold authenticateToken; cbv zeta. fold token.
    rewrite Hf, Hv. unfold bind, users_select, get, ret, res_status.
    destruct (JWT.user_id decoded) as [uid|]; [|reflexivity].
    by rewrite (filter_key_absent User.id (users s) uid (Hno uid eq_refl)).
  - intros Hf decoded uid Hv Hu Hin.
    change (authenticateToken now req next s =
              next (Req.set_user_id (Some uid) req) s).
    apply guard_pass; [done|]. split; [done|]. eauto.
Qed.

End GuardOutcomes.

Section TokenWindow.
Context `{Runtime} `{!JWT.CodecLaws}.

(** What verification makes of a freshly issued token. *)
Lemma verify_generateToken (T t : Z) (user : User.t) :
  JWT.verify (generateToken T user) JWT_SECRET t =
    if T / 1000 + JWT.expiresIn_7d <=? t / 1000
    then inl JWT.TokenExpiredError
    else inr {| JWT.user_id := Some (User.id user);
                JWT.mobile := Some (User.mobile_number user);
                JWT.iat := T / 1000;
                JWT.exp := Some (T / 1000 + JWT.expiresIn_7d) |}.
Proof.
  unfold generateToken, JWT.sign, JWT.verify; cbv zeta.
  rewrite JWT.decode_encode; cbn [JWT.key JWT.claims JWT.exp].
  by rewrite bool_decide_eq_true_2.
Qed.

(** C3. A token issued for a user at time T carries that user's id and
    mobile number and is valid for seven days: verifying it at T + 6 days
    yields the id, verifying it at T + 8 days fails as expired, and in
    general it verifies exactly while the clock, in whole seconds, is
    less than seven days past the second of issue. *)
Theorem token_seven_day_window (T : Z) (user : User.t) :
  let token := generateToken T user in
  let days n := n * JSDate.msPerDay in
  (exists decoded,
      JWT.verify token JWT_SECRET (T + days 6) = inr decoded /\
      JWT.user_id decoded = Some (User.id user) /\
      JWT.mobile decoded = Some (User.mobile_number user)) /\
  JWT.verify token JWT_SECRET (T + days 8) = inl JWT.TokenExpiredError /\
  (forall t,
      (exists decoded, JWT.verify token JWT_SECRET t = inr decoded) <->
      t / 1000 < T / 1000 + 7 * 24 * 60 * 60).
Proof.
  intros token days. subst token days. cbv beta.
  unfold JSDate.msPerDay. repeat split.
  - rewrite verify_generateToken. unfold JWT.expiresIn_7d.
    destruct (Z.leb_spec (T / 1000 + 7 * 24 * 60 * 60) ((T + 6 * 86400000) / 1000));
      [exfalso; Z.div_mod_to_equations; lia|].
    eexists; repeat split.
  - rewrite verify_generateToken. unfold JWT.expiresIn_7d.
    destruct (Z.leb_spec (T / 1000 + 7 * 24 * 60 * 60) ((T + 8 * 86400000) / 1000));
      [done | exfalso; Z.div_mod_to_equations; lia].
  - rewrite verify_generateToken. unfold JWT.expiresIn_7d.
    destruct (Z.leb_spec (T / 1000 + 7 * 24 * 60 * 60) (t / 1000));
      [intros [? ?]; discriminate | done].
  - rewrite verify_generateToken. unfold JWT.expiresIn_7d. intros Ht.
    destruct (Z.leb_spec (T / 1000 + 7 * 24 * 60 * 60) (t / 1000)); [lia|eauto].
Qed.

End TokenWindow.

(* ===================================================================== *)
(** ** Deleting an address *)

Lemma set_addresses_id s : set_addresses (addresses s) s = s.
Proof. by destruct s. Qed.

Lemma set_users_id s : set_users (users s) s = s.
Proof. by destruct s. Qed.

Section DeleteAddress.
Context `{Runtime}.

(** The handler deletes the rows matching both filters and, because the
    delete is awaited without [.select()], always takes the 404 branch. *)
Lemma remove_address_eq req s :
  remove_address req s =
    ({| status := 404; payload := ErrorBody "Address not found or unauthorized" |},
     set_addresses
       (filter (fun a => ~ (Address.id a = Req.params_id req /\
                            Some (Address.user_id a) = Req.user_id req))
               (addresses s)) s).
Proof. reflexivity. Qed.

(** C5, as the code has it.  An authenticated DELETE /address/:id for an
    address the caller owns removes the row and nothing else, yet the
    reply is 404 "Address not found or unauthorized", not 200. *)
Theorem delete_own_address_replies_404 now req s uid a :
  primary_keys s -> authenticated now req s uid ->
  a ∈ addresses s ->
  Address.id a = Req.params_id req -> Address.user_id a = uid ->
  exists s',
    delete_address now req s =
      ({| status := 404; payload := ErrorBody "Address not found or unauthorized" |}, s') /\
    users s' = users s /\
    (forall b, b ∈ addresses s' <-> b ∈ addresses s /\ b <> a).
Proof.
  intros Hpk Hauth Ha Hid Hown. unfold delete_address.
  rewrite (guard_pass _ _ _ uid) by done. rewrite remove_address_eq.
  eexists; split; [reflexivity|]. split; [reflexivity|].
  intros b. cbn. rewrite list_elem_of_filter. split.
  - intros [Hb Hin]. split; [done|]. intros ->. apply Hb. by subst.
  - intros [Hin Hne]. split; [|done]. intros [Hbid _]. apply Hne.
    destruct Hpk as [_ Hpk].
    apply (key_inj Address.id (addresses s)); [done..|congruence].
Qed.

(** C6. An authenticated DELETE /address/:id for an address that exists
    but belongs to another user is answered with 404 and leaves the store
    exactly as it was. *)
Theorem delete_foreign_address_404 now req s uid a :
  primary_keys s -> authenticated now req s uid ->
  a ∈ addresses s ->
  Address.id a = Req.params_id req -> Address.user_id a <> uid ->
  delete_address now req s =
    ({| status := 404; payload := ErrorBody "Address not found or unauthorized" |}, s).
Proof.
  intros Hpk Hauth Ha Hid Hown. unfold delete_address.
  rewrite (guard_pass _ _ _ uid) by done. rewrite remove_address_eq.
  f_equal. cbn. rewrite filter_not_none; [apply set_addresses_id|].
  intros b Hb [Hbid Hbu]. apply Hown.
  destruct Hpk as [_ Hpk].
  assert (b = a) as -> by (apply (key_inj Address.id (addresses s)); [done..|congruence]).
  congruence.
Qed.

End DeleteAddress.

(* ===================================================================== *)
(** ** Signup *)

Section Signup.
Context `{Runtime}.

(** C7. A signup whose mobile number is that of an existing user is
    answered with 400 and leaves the store, and with it the users table,
    unchanged. *)
Theorem signup_duplicate_mobile now req s u :
  unique_mobile s -> u ∈ users s ->
  Req.body req !! "mobile_number" = Some (User.mobile_number u) ->
  exists message,
    post_signup now req s = ({| status := 400; payload := ErrorBody message |}, s).
Proof.
  intros Huniq Hu Hm. unfold post_signup; cbv zeta. rewrite Hm.
  destruct (falsy _ || _ || _); [by eexists|].
  unfold bind, users_select, get, res_status, ret. cbn [text].
  destruct (filter_key_unique User.mobile_number (users s) (User.mobile_number u))
    as (x & -> & _); [done | by apply list_elem_of_fmap_2 |].
  by eexists.
Qed.

End Signup.

(* ===================================================================== *)
(** ** Login *)

Section Login.
Context `{Runtime}.

(** The call returns the token unless the secret is empty. *)
Lemma generateToken_or_throw_eq now user :
  generateToken_or_throw now user =
    if falsy (Some JWT_SECRET) then None else Some (generateToken now user).
Proof. reflexivity. Qed.

Lemma recorded_after_update (uid : Z) (now : Z) (l : list User.t) :
  User.last_login <$>
    filter (fun u => User.id u = uid)
      ((fun u => if decide (User.id u = uid)
                 then User.set_last_login (Some now) u else u) <$> l)
  = (fun _ => Some now) <$> filter (fun u => User.id u = uid) l.
Proof.
  induction l as [|x l IH]; [reflexivity|].
  rewrite fmap_cons. destruct (decide (User.id x = uid)) as [E|E].
  - rewrite !filter_cons_True by done. rewrite !fmap_cons, IH. reflexivity.
  - by rewrite !filter_cons_False.
Qed.

(** A login answered with 200 has found its user and stamped every row
    of that user with the clock. *)
Lemma login_success now req s r s' :
  post_login now req s = (r, s') -> status r = 200 ->
  exists user,
    user ∈ users s /\
    r = {| status := 200;
           payload := SessionBody "Login successful" (generateToken now user) user |} /\
    recorded_last_login (User.id user) s' =
      (fun _ => Some now) <$> filter (fun u => User.id u = User.id user) (users s).
Proof.
  unfold post_login; cbv zeta. destruct (falsy _).
  { intros [= <- <-]; discriminate. }
  unfold bind, users_select, get, users_update, res_json, res_status, ret.
  destruct (filter _ (users s)) as [|user [|? ?]] eqn:Hf; cbn;
    try (intros [= <- <-]; discriminate).
  rewrite generateToken_or_throw_eq.
  destruct (falsy (Some JWT_SECRET)); [intros [= <- <-]; discriminate|].
  intros [= <- <-] _. exists user. split; [|split; [done|]].
  - assert (user ∈ filter (fun u => User.mobile_number u =
              text (Req.body req !! "mobile_number")) (users s)) as Hin
      by (rewrite Hf; constructor).
    by apply list_elem_of_filter in Hin as [_ ?].
  - apply recorded_after_update.
Qed.

(** C8. A successful login stores the current time as the user's
    last login; so when the same user logs in successfully at two
    times, the second strictly after the first, the value stored by the
    second is strictly later than the value stored by the first. *)
Theorem login_records_current_time now1 now2 req1 req2 s1 s2 r1 r2 s1' s2' uid :
  post_login now1 req1 s1 = (r1, s1') -> status r1 = 200 ->
  post_login now2 req2 s2 = (r2, s2') -> status r2 = 200 ->
  session_user r1 = Some uid -> session_user r2 = Some uid ->
  now1 < now2 ->
  recorded_last_login uid s1' <> [] /\
  recorded_last_login uid s2' <> [] /\
  Forall (fun v => v = Some now1) (recorded_last_login uid s1') /\
  Forall (fun v => v = Some now2) (recorded_last_login uid s2') /\
  (forall t1 t2,
      Some t1 ∈ recorded_last_login uid s1' ->
      Some t2 ∈ recorded_last_login uid s2' -> t1 < t2).
Proof.
  intros L1 S1 L2 S2 U1 U2 Hlt.
  destruct (login_success _ _ _ _ _ L1 S1) as (u1 & Hin1 & -> & R1).
  destruct (login_success _ _ _ _ _ L2 S2) as (u2 & Hin2 & -> & R2).
  cbn in U1, U2. injection U1 as <-. injection U2 as E2. rewrite E2 in R2.
  assert (forall (now : Z) (l : list User.t),
             Forall (fun v => v = Some now) ((fun _ : User.t => Some now) <$> l))
    as Hall by (intros; apply Forall_fmap, Forall_true; done).
  assert (forall (now : Z) (u : User.t) (l : list User.t),
             u ∈ l ->
             (fun _ : User.t => Some now) <$>
               filter (fun x => User.id x = User.id u) l <> [])
    as Hne.
  { intros now u l Hu Hnil. apply fmap_nil_inv in Hnil.
    eapply (filter_nil_not_elem_of _ _ u) in Hnil; done. }
  rewrite R1, R2. repeat split; auto.
  - rewrite <- E2 in *. by apply Hne.
  - intros t1 t2 H1 H2.
    apply list_elem_of_fmap in H1 as (? & [= ->] & _).
    apply list_elem_of_fmap in H2 as (? & [= ->] & _). done.
Qed.

End Login.

(* ===================================================================== *)
(** ** Newsletter *)

Section Subscribe.
Context `{Runtime}.

Lemma filter_eq_present (l : list string) (e : string) :
  NoDup l -> e ∈ l -> filter (fun x => x = e) l = [e].
Proof.
  intros Hnd He.
  destruct (filter_key_unique (fun x : string => x) l e) as (x & Hx & _ & <-);
    [by rewrite list_fmap_id | by rewrite list_fmap_id | exact Hx].
Qed.

Lemma filter_eq_absent (l : list string) (e : string) :
  e ∉ l -> filter (fun x => x = e) l = [].
Proof.
  intros He. apply (filter_key_absent (fun x : string => x)).
  by rewrite list_fmap_id.
Qed.

(** Subscribing an email that is already stored once. *)
Lemma subscribe_present req s :
  unique_email s -> falsy (Req.body req !! "email") = false ->
  text (Req.body req !! "email") ∈ news_letter s ->
  post_subscribe req s =
    ({| status := 409; payload := MessageBody "Already subscribed" |}, s) /\
  subscriptions (text (Req.body req !! "email")) s = 1%nat.
Proof.
  intros Hnd Hf Hin. unfold post_subscribe, subscriptions; cbv zeta.
  rewrite Hf. unfold bind, news_letter_select, get.
  by rewrite filter_eq_present.
Qed.

(** C9. Subscribing an email that the newsletter table already holds is
    answered with 409 and leaves the table with exactly one row for that
    email; in particular a subscribe that succeeded (201), repeated with
    the same email, gets 409 and the row is still single. *)
Theorem subscribe_duplicate_409 req s :
  unique_email s ->
  let email := text (Req.body req !! "email") in
  (falsy (Req.body req !! "email") = false -> email ∈ news_letter s ->
     post_subscribe req s =
       ({| status := 409; payload := MessageBody "Already subscribed" |}, s) /\
     subscriptions email s = 1%nat) /\
  (forall r1 s1,
     post_subscribe req s = (r1, s1) -> status r1 = 201 ->
     post_subscribe req s1 =
       ({| status := 409; payload := MessageBody "Already subscribed" |}, s1) /\
     subscriptions email s1 = 1%nat).
Proof.
  intros Hnd email. split; [by apply subscribe_present|].
  intros r1 s1. unfold post_subscribe at 1; cbv zeta.
  destruct (falsy (Req.body req !! "email")) eqn:Hf.
  { intros [= <- <-]; discriminate. }
  unfold bind, news_letter_select, get, news_letter_insert, res_status, ret.
  fold email.
  destruct (decide (email ∈ news_letter s)) as [Hin|Hin].
  { rewrite filter_eq_present by done. cbn. intros [= <- <-]; discriminate. }
  rewrite filter_eq_absent by done. cbn. intros [= <- <-] _.
  apply subscribe_present; [|done|].
  - unfold unique_email; cbn. apply NoDup_app. repeat split; [done| |].
    + intros x Hx ->%list_elem_of_singleton. done.
    + apply NoDup_singleton.
  - cbn. apply elem_of_app. right. constructor.
Qed.

End Subscribe.

(* ===================================================================== *)
(** ** The account lifecycle job *)

Module CutoffFacts.
Import JSDate JSDateFacts.

(** Going back three months from a given day-of-month moves the day by
    the length of the three calendar months that precede the current
    one: 89 to 92 days. *)
Lemma MakeDay_three_months y m d :
  89 <= MakeDay y m d - MakeDay y (m - 3) d <= 92.
Proof.
  unfold MakeDay; cbv zeta.
  pose proof (Z.mod_pos_bound m 12 ltac:(lia)) as Hr.
  destruct (Z_lt_le_dec (m mod 12) 3) as [Hlo|Hhi].
  - assert ((m - 3) / 12 = m / 12 - 1) as -> by (Z.div_mod_to_equations; lia).
    assert ((m - 3) mod 12 = m mod 12 + 9) as -> by (Z.div_mod_to_equations; lia).
    pose proof (DayFromYear_succ (y + (m / 12 - 1))) as Hy.
    replace (y + (m / 12 - 1) + 1) with (y + m / 12) in Hy by lia.
    rewrite Hy.
    generalize (DayFromYear (y + (m / 12 - 1))); intros F.
    assert (m mod 12 = 0 \/ m mod 12 = 1 \/ m mod 12 = 2) as Hc by lia.
    destruct (DaysInYear_cases (y + (m / 12 - 1))) as [D|D]; rewrite D;
    destruct (DaysInYear_cases (y + m / 12)) as [D'|D']; rewrite D';
      split_tests; try lia;
      repeat (destruct Hc as [Hc|Hc]; [rewrite Hc; eval_MonthStart; lia|]);
      rewrite Hc; eval_MonthStart; lia.
  - assert ((m - 3) / 12 = m / 12) as -> by (Z.div_mod_to_equations; lia).
    assert ((m - 3) mod 12 = m mod 12 - 3) as -> by (Z.div_mod_to_equations; lia).
    generalize (DayFromYear (y + m / 12)); intros F.
    assert (m mod 12 = 3 \/ m mod 12 = 4 \/ m mod 12 = 5 \/ m mod 12 = 6 \/
            m mod 12 = 7 \/ m mod 12 = 8 \/ m mod 12 = 9 \/ m mod 12 = 10 \/
            m mod 12 = 11) as Hc by lia.
    destruct (DaysInYear_cases (y + m / 12)) as [D|D]; rewrite D;
      split_tests; try lia;
      repeat (destruct Hc as [Hc|Hc]; [rewrite Hc; eval_MonthStart; lia|]);
      rewrite Hc; eval_MonthStart; lia.
Qed.

Section Cutoff.
Context `{Runtime}.

(** The cutoff is the host's wall-clock time of [now] moved back by the
    three calendar months before the current one, 89 to 92 days, at the
    same time of day, and read as a UTC instant again. *)
Lemma threeMonthsAgo_days now :
  exists k, 89 <= k <= 92 /\
    threeMonthsAgo now =
      UTC LocalTZA (LocalTime LocalTZA now - k * msPerDay).
Proof.
  unfold threeMonthsAgo, setMonth, getMonth, MakeDate; cbv zeta.
  set (lt := LocalTime LocalTZA now).
  pose proof (MakeDay_three_months (YearFromTime lt) (MonthFromTime lt)
                (DateFromTime lt)) as Hk.
  rewrite MakeDay_fields in Hk.
  exists (Day lt - MakeDay (YearFromTime lt) (MonthFromTime lt - 3) (DateFromTime lt)).
  split; [lia|]. f_equal.
  pose proof (Z.div_mod lt msPerDay ltac:(unfold msPerDay; lia)) as Hdm.
  unfold Day, TimeWithinDay in *. lia.
Qed.

(** In UTC the cutoff is 89 to 92 days before [now], give or take what
    the host's offsets differ by. *)
Lemma threeMonthsAgo_window now V :
  varies_within LocalTZA V ->
  now - 92 * msPerDay - V <= threeMonthsAgo now <= now - 89 * msPerDay + V.
Proof.
  intros Hzone. destruct (threeMonthsAgo_days now) as (k & Hk & ->).
  unfold UTC, LocalTime.
  pose proof (Hzone now true (now + LocalTZA now true - k * msPerDay) false).
  pose proof (Hzone (now + LocalTZA now true - k * msPerDay) false now true).
  unfold msPerDay in *. lia.
Qed.

Lemma monthsAgo_lt (j k now V : Z) :
  varies_within LocalTZA V -> V < 28 * msPerDay ->
  j < k -> monthsAgo k now < monthsAgo j now.
Proof.
  intros Hzone HV Hjk. unfold monthsAgo.
  apply (setMonth_lt LocalTZA V); [done..|lia].
Qed.

Lemma monthsAgo_3 now : monthsAgo 3 now = threeMonthsAgo now.
Proof. unfold monthsAgo, threeMonthsAgo. reflexivity. Qed.

End Cutoff.

End CutoffFacts.

Section Cleanup.
Context `{Runtime}.
Import CutoffFacts.

(** One run, query by query: with nobody selected nothing is written;
    otherwise there are two writes, and the store after the first has the
    addresses of the selected users removed and the users table as it
    was. *)
Lemma cleanup_steps_eq now s :
  cleanupInactiveUsers_steps now s =
    let userIds := User.id <$> inactiveUsers now s in
    let s1 := set_addresses
                (filter (fun a => Address.user_id a ∉ userIds) (addresses s)) s in
    let s2 := set_users (filter (fun u => User.id u ∉ userIds) (users s)) s1 in
    match inactiveUsers now s with
    | [] => ([], s, [])
    | _ :: _ => ([ConsoleLogDeleted (length (inactiveUsers now s))], s2, [s1; s2])
    end.
Proof.
  unfold cleanupInactiveUsers_steps, steps_bind, reading, writing, steps_ret,
    users_select, get, inactiveUsers.
  cbn [Postgrest.rows Postgrest.error Postgrest.data].
  destruct (filter _ (users s)) as [|x l] eqn:Hsel; reflexivity.
Qed.

(** What one run does to the store: rows are removed by the ids of the
    selected users, from [addresses] and from [users]. *)
Lemma cleanup_exec now s :
  exec (cleanupInactiveUsers now) s =
    set_users
      (filter (fun u => User.id u ∉ (User.id <$> inactiveUsers now s)) (users s))
      (set_addresses
         (filter (fun a => Address.user_id a ∉ (User.id <$> inactiveUsers now s))
                 (addresses s)) s).
Proof.
  unfold cleanupInactiveUsers, settle, exec. rewrite cleanup_steps_eq. cbv zeta.
  destruct (inactiveUsers now s) as [|x l] eqn:Hsel; [|reflexivity].
  cbn. rewrite !filter_not_none by (intros ? _ []%elem_of_nil).
  by rewrite set_addresses_id, set_users_id.
Qed.

(** The stores the database goes through during one run. *)
Lemma cleanup_journal now s :
  journal (cleanupInactiveUsers_steps now) s =
    if decide (inactiveUsers now s = []) then []
    else [set_addresses
            (filter (fun a => Address.user_id a ∉ (User.id <$> inactiveUsers now s))
                    (addresses s)) s;
          exec (cleanupInactiveUsers now) s].
Proof.
  rewrite cleanup_exec. unfold journal. rewrite cleanup_steps_eq. cbv zeta.
  by destruct (inactiveUsers now s).
Qed.

Lemma inactiveUsers_spec now s u :
  u ∈ inactiveUsers now s <->
  u ∈ users s /\ exists t, User.last_login u = Some t /\ t < threeMonthsAgo now.
Proof.
  unfold inactiveUsers. rewrite list_elem_of_filter. unfold sql_lt.
  destruct (User.last_login u) as [t|]; split.
  - intros [? ?]. eauto.
  - intros (? & t' & [= <-] & ?). done.
  - intros [[] _].
  - intros (_ & ? & ? & _). discriminate.
Qed.

(** With [id] a key, a user's id is among the selected ids exactly when
    the user is selected. *)
Lemma selected_by_id now s u :
  primary_keys s -> u ∈ users s ->
  User.id u ∈ (User.id <$> inactiveUsers now s) <-> u ∈ inactiveUsers now s.
Proof.
  intros [Hpk _] Hu. split; [|apply list_elem_of_fmap_2].
  intros (v & Hid & Hv)%list_elem_of_fmap.
  assert (v ∈ users s) as Hvs
    by (unfold inactiveUsers in Hv; by apply list_elem_of_filter in Hv as [_ ?]).
  by rewrite (key_inj User.id (users s) u v Hpk Hu Hvs Hid).
Qed.

(** The users left by a run are those that were not selected. *)
Lemma cleanup_users now s u :
  primary_keys s ->
  u ∈ users (exec (cleanupInactiveUsers now) s) <->
  u ∈ users s /\ u ∉ inactiveUsers now s.
Proof.
  intros Hpk. rewrite cleanup_exec. cbn. rewrite list_elem_of_filter. split.
  - intros [Hn Hu]. split; [done|]. by rewrite <- selected_by_id.
  - intros [Hu Hn]. split; [|done]. by rewrite selected_by_id.
Qed.

(** The addresses left by a run are those of users not selected. *)
Lemma cleanup_addresses now s a :
  a ∈ addresses (exec (cleanupInactiveUsers now) s) <->
  a ∈ addresses s /\ Address.user_id a ∉ (User.id <$> inactiveUsers now s).
Proof. rewrite cleanup_exec. cbn. rewrite list_elem_of_filter. tauto. Qed.

(** C2. One run of the job: the cutoff is [now] moved back three
    calendar months on the host's wall clock (the same time of day, 89 to
    92 days earlier, read as a UTC instant again; in UTC that is 89 to 92
    days before [now] give or take what the host's offsets differ by);
    the users selected are exactly those whose last login is strictly
    before the cutoff; with nobody selected the job writes nothing; when
    any is selected it writes twice, and the store after the first write
    has the addresses owned by selected users removed and the users table
    still intact, the selected users being deleted by the second; nothing
    else changes.  For U1 with last login four months ago, U2 with last
    login one month ago and an address A1 of U1, on a host whose offsets
    differ by a day at most: after the run U1 and A1 are gone, U2 and the
    addresses of U2 are still there.  "Four months ago" and "one month
    ago" are read either on the calendar, the way the job counts its
    three months, or as a span of days (at least 4 x 28, at most 31). *)
Theorem cleanup_run now s :
  primary_keys s ->
  let cutoff := threeMonthsAgo now in
  let selected := inactiveUsers now s in
  let userIds := User.id <$> selected in
  let s2 := exec (cleanupInactiveUsers now) s in
  (exists k, 89 <= k <= 92 /\
     cutoff = JSDate.UTC LocalTZA
                (JSDate.LocalTime LocalTZA now - k * JSDate.msPerDay)) /\
  (forall V, JSDate.varies_within LocalTZA V ->
     now - 92 * JSDate.msPerDay - V <= cutoff <= now - 89 * JSDate.msPerDay + V) /\
  (forall u, u ∈ selected <->
             u ∈ users s /\ exists t, User.last_login u = Some t /\ t < cutoff) /\
  (selected = [] -> journal (cleanupInactiveUsers_steps now) s = []) /\
  (selected <> [] ->
     exists s1,
       journal (cleanupInactiveUsers_steps now) s = [s1; s2] /\
       users s1 = users s /\
       (forall a, a ∈ addresses s1 <->
                  a ∈ addresses s /\ Address.user_id a ∉ userIds) /\
       (forall u, u ∈ selected -> u ∈ users s1 /\ u ∉ users s2)) /\
  (forall u, u ∈ users s2 <-> u ∈ users s /\ u ∉ selected) /\
  (forall a, a ∈ addresses s2 <->
             a ∈ addresses s /\ Address.user_id a ∉ userIds) /\
  news_letter s2 = news_letter s /\
  (forall V, JSDate.varies_within LocalTZA V -> V <= JSDate.msPerDay ->
   forall u1 u2 a1 t1 t2,
      u1 ∈ users s -> u2 ∈ users s -> a1 ∈ addresses s ->
      User.last_login u1 = Some t1 -> User.last_login u2 = Some t2 ->
      t1 = monthsAgo 4 now \/ t1 <= now - 4 * 28 * JSDate.msPerDay ->
      t2 = monthsAgo 1 now \/ now - 31 * JSDate.msPerDay <= t2 ->
      Address.user_id a1 = User.id u1 ->
      (u1 ∉ users s2) /\ (a1 ∉ addresses s2) /\ u2 ∈ users s2 /\
      forall a, a ∈ addresses s -> Address.user_id a = User.id u2 ->
                a ∈ addresses s2).
Proof.
  intros Hpk cutoff selected userIds s2.
  subst cutoff selected userIds s2.
  pose proof (fun u => cleanup_users now s u Hpk) as Husers.
  pose proof (cleanup_addresses now s) as Haddr.
  split; [apply threeMonthsAgo_days|].
  split; [intros V; apply threeMonthsAgo_window|].
  split; [intros u; apply inactiveUsers_spec|].
  split; [|split; [|split; [done|split; [done|split]]]].
  - intros Hnone. rewrite cleanup_journal. by rewrite decide_True.
  - intros Hne. rewrite cleanup_journal. rewrite decide_False by done.
    eexists. split; [reflexivity|]. split; [reflexivity|]. split.
    + intros a. cbn. rewrite list_elem_of_filter. tauto.
    + intros u Hu. cbn. split.
      * unfold inactiveUsers in Hu. by apply list_elem_of_filter in Hu as [_ ?].
      * rewrite Husers. tauto.
  - by rewrite cleanup_exec.
  - intros V Hzone HV u1 u2 a1 t1 t2 Hu1 Hu2 Ha1 L1 L2 Hold Hrecent Hown.
    pose proof (threeMonthsAgo_window now V Hzone) as Hcut.
    assert (0 <= V) as HV0 by (specialize (Hzone 0 true 0 true); lia).
    assert (t1 < threeMonthsAgo now) as Ht1.
    { destruct Hold as [->|Hold].
      - rewrite <- monthsAgo_3.
        apply (monthsAgo_lt 3 4 now V); [done| |lia].
        unfold JSDate.msPerDay in *. lia.
      - unfold JSDate.msPerDay in *. lia. }
    assert (threeMonthsAgo now < t2) as Ht2.
    { destruct Hrecent as [->|Hrecent].
      - rewrite <- monthsAgo_3.
        apply (monthsAgo_lt 1 3 now V); [done| |lia].
        unfold JSDate.msPerDay in *. lia.
      - unfold JSDate.msPerDay in *. lia. }
    assert (u1 ∈ inactiveUsers now s) as Hs1.
    { apply inactiveUsers_spec. split; [done|]. eauto. }
    assert (u2 ∉ inactiveUsers now s) as Hs2.
    { intros (_ & t & Ht & Hlt)%inactiveUsers_spec.
      rewrite L2 in Ht. injection Ht as <-. lia. }
    repeat split.
    + rewrite Husers. tauto.
    + rewrite Haddr, Hown. intros [_ Hn]. apply Hn.
      by apply list_elem_of_fmap_2.
    + by apply Husers.
    + intros a Ha Ho. apply Haddr. split; [done|]. rewrite Ho.
      by rewrite selected_by_id.
Qed.

(** C10. A user whose last login is unset is never selected by the job,
    and a run leaves that user's row and every address of that user
    in place. *)
Theorem cleanup_keeps_never_logged_in now s u :
  primary_keys s -> u ∈ users s -> User.last_login u = None ->
  let s' := exec (cleanupInactiveUsers now) s in
  (u ∉ inactiveUsers now s) /\
  u ∈ users s' /\
  (forall a, a ∈ addresses s -> Address.user_id a = User.id u -> a ∈ addresses s') /\
  (forall a, a ∈ addresses s' -> a ∈ addresses s).
Proof.
  intros Hpk Hu Hnull s'.
  assert (u ∉ inactiveUsers now s) as Hn.
  { intros (_ & t & Ht & _)%inactiveUsers_spec. congruence. }
  pose proof (fun u => cleanup_users now s u Hpk) as Husers.
  pose proof (cleanup_addresses now s) as Haddr.
  repeat split.
  - done.
  - apply Husers. done.
  - intros a Ha Ho. apply Haddr. split; [done|]. rewrite Ho.
    by rewrite selected_by_id.
  - intros a Ha. by apply Haddr in Ha as [? _].
Qed.

End Cleanup.

(* ===================================================================== *)
(** ** Referential integrity *)

Section References.
Context `{Runtime}.

Lemma references_ok_alt s :
  references_ok s <->
  forall a, a ∈ addresses s -> Address.user_id a ∈ (User.id <$> users s).
Proof. unfold references_ok. by rewrite Forall_forall. Qed.

(** The guard either answers by itself, leaving the store alone, or
    hands an authenticated request to the handler. *)
Lemma guard_cases now req (next : Req.t -> App reply) s :
  (exists r, authenticateToken now req next s = (r, s)) \/
  (exists uid, authenticated now req s uid /\
     authenticateToken now req next s = next (Req.set_user_id (Some uid) req) s).
Proof.
  unfold authenticateToken, authenticated; cbv zeta.
  destruct (falsy (bearer req)) eqn:Hf; [left; by eexists|].
  destruct (JWT.verify _ _ _) as [e|decoded] eqn:Hv; [left; by eexists|].
  unfold bind, users_select, get, ret, res_status.
  destruct (JWT.user_id decoded) as [uid|] eqn:Hu; [|left; by eexists].
  destruct (filter _ (users s)) as [|u [|? ?]] eqn:Hsel; cbn;
    [left; by eexists | | left; by eexists].
  right. exists uid. split; [|done]. split; [done|].
  exists decoded. repeat split; [done|].
  assert (u ∈ filter (fun u => User.id u = uid) (users s)) as Hin
    by (rewrite Hsel; constructor).
  apply list_elem_of_filter in Hin as [<- Hin]. by apply list_elem_of_fmap_2.
Qed.

(** POST /address adds nothing, or one row owned by the caller. *)
Lemma post_address_store now req s :
  exec (post_address now req) s = s \/
  exists uid, authenticated now req s uid /\
    exec (post_address now req) s =
      set_addresses_seq (addresses_seq s + 1)
        (set_addresses
           (addresses s ++
              [{| Address.id := addresses_seq s; Address.user_id := uid;
                  Address.cols := pick address_insert_columns (Req.body req) |}]) s).
Proof.
  unfold post_address, exec.
  destruct (guard_cases now req add_address s) as [[r ->]|(uid & Hauth & ->)];
    [by left|].
  right. exists uid. split; [done|]. reflexivity.
Qed.

Lemma fmap_update_same {A B} (f : A -> B) (g : A -> A) (P : A -> Prop)
    `{!forall x, Decision (P x)} (l : list A) :
  (forall x, f (g x) = f x) ->
  f <$> ((fun x => if decide (P x) then g x else x) <$> l) = f <$> l.
Proof.
  intros Hfg. rewrite <- list_fmap_compose. apply list_fmap_ext.
  intros i x _. cbn. by destruct (decide (P x)).
Qed.

(** What the PUT handler leaves in the store, whatever it answers: the
    rows matching id and owner get the editable fields of the body (none,
    when the body has none). *)
Lemma edit_address_rows req s :
  exec (edit_address req) s =
    set_addresses
      ((fun a =>
          if decide (Address.id a = Req.params_id req /\
                     Some (Address.user_id a) = Req.user_id req)
          then Address.set_cols
                 (pick address_update_columns (Req.body req) ∪ Address.cols a) a
          else a) <$> addresses s) s.
Proof.
  unfold exec, edit_address, bind, addresses_patch, addresses_update; cbv zeta.
  destruct (decide (pick address_update_columns (Req.body req) = ∅)) as [->|Hne].
  - cbn. rewrite <- (set_addresses_id s) at 1. f_equal.
    rewrite <- (list_fmap_id (addresses s)) at 1. apply list_fmap_ext.
    intros i a _. cbn. destruct (decide _); [|done].
    rewrite (left_id_L ∅ (∪)). by destruct a.
  - by destruct (Postgrest.error _).
Qed.

(** PUT /address/:id changes neither the users nor the owner of any
    address. *)
Lemma put_address_store now req s :
  users (exec (put_address now req) s) = users s /\
  Address.user_id <$> addresses (exec (put_address now req) s) =
    Address.user_id <$> addresses s.
Proof.
  unfold put_address, exec.
  destruct (guard_cases now req edit_address s) as [[r ->]|(uid & _ & ->)];
    [done|].
  fold (exec (edit_address (Req.set_user_id (Some uid) req)) s).
  rewrite edit_address_rows. cbn. split; [reflexivity|].
  by apply fmap_update_same.
Qed.

(** DELETE /address/:id changes no user and adds no address. *)
Lemma delete_address_store now req s :
  users (exec (delete_address now req) s) = users s /\
  forall a, a ∈ addresses (exec (delete_address now req) s) -> a ∈ addresses s.
Proof.
  unfold delete_address, exec.
  destruct (guard_cases now req remove_address s) as [[r ->]|(uid & _ & ->)];
    [done|].
  rewrite remove_address_eq. cbn. split; [done|].
  intros a Ha. by apply list_elem_of_filter in Ha as [_ ?].
Qed.

(** POST /signup changes no address and removes no user. *)
Lemma post_signup_store now req s :
  addresses (exec (post_signup now req) s) = addresses s /\
  forall u, u ∈ users s -> u ∈ users (exec (post_signup now req) s).
Proof.
  unfold post_signup, exec; cbv zeta.
  destruct (falsy _ || _ || _); [done|].
  unfold bind, users_select, get, users_insert, res_status, ret.
  destruct (truthy _); [done|]. cbn.
  destruct (generateToken_or_throw _ _); cbn; (split; [done|]);
    intros u Hu; apply elem_of_app; by left.
Qed.

(** POST /login changes no address and no user id. *)
Lemma post_login_store now req s :
  addresses (exec (post_login now req) s) = addresses s /\
  User.id <$> users (exec (post_login now req) s) = User.id <$> users s.
Proof.
  unfold post_login, exec; cbv zeta.
  destruct (falsy _); [done|].
  unfold bind, users_select, get, users_update, res_json, res_status, ret.
  destruct (Postgrest.data _) as [user|]; [|done]. cbn.
  destruct (generateToken_or_throw _ _); cbn;
    (split; [done|]); by apply fmap_update_same.
Qed.

(** POST /subscribe touches neither table. *)
Lemma post_subscribe_store req s :
  addresses (exec (post_subscribe req) s) = addresses s /\
  users (exec (post_subscribe req) s) = users s.
Proof.
  unfold post_subscribe, exec; cbv zeta.
  destruct (falsy _); [done|].
  unfold bind, news_letter_select, get, news_letter_insert, res_status, ret.
  by destruct (truthy _).
Qed.

(** C4. Every event that writes to the store keeps every address row
    pointing at an existing user row.  POST /address adds at most one
    row, and that row carries the user id of the authenticated caller,
    a user that exists; the lifecycle job removes the addresses of the
    users it selected while all users are still there, and only then
    removes those users: every store the database goes through during a
    run, the one between the two deletes included, has the property, and
    in each of them a user that is gone has no address left. *)
Theorem references_preserved (e : event) (s : store) :
  references_ok s ->
  references_ok (run e s) /\
  (forall now req, e = PostAddress now req ->
     run e s = s \/
     exists uid row,
       authenticated now req s uid /\ Address.user_id row = uid /\
       uid ∈ (User.id <$> users s) /\
       addresses (run e s) = (addresses s ++ [row])%list) /\
  (forall now, e = Cleanup now ->
     Forall references_ok (journal (cleanupInactiveUsers_steps now) s) /\
     (forall s1 u a,
        s1 ∈ journal (cleanupInactiveUsers_steps now) s ->
        u ∈ users s -> u ∉ users s1 ->
        a ∈ addresses s1 -> Address.user_id a <> User.id u) /\
     (inactiveUsers now s <> [] ->
        length (journal (cleanupInactiveUsers_steps now) s) = 2%nat /\
        last (journal (cleanupInactiveUsers_steps now) s) = Some (run e s))).
Proof.
  intros Hok. split; [|split].
  - rewrite references_ok_alt in Hok. apply references_ok_alt.
    destruct e as [now req|now req|now req|now req|now req|req|now]; cbn [run].
    + destruct (post_signup_store now req s) as [-> Hu].
      intros a Ha. apply Hok in Ha.
      apply list_elem_of_fmap in Ha as (u & -> & Hin).
      by apply list_elem_of_fmap_2, Hu.
    + destruct (post_login_store now req s) as [-> ->]. done.
    + destruct (post_address_store now req s) as [->|(uid & Hauth & ->)]; [done|].
      cbn. intros a [Ha| ->%list_elem_of_singleton]%elem_of_app; [by apply Hok|].
      cbn. by destruct Hauth as (_ & ? & _ & _ & ?).
    + destruct (put_address_store now req s) as [-> Hsame].
      intros a Ha. apply (list_elem_of_fmap_2 Address.user_id) in Ha.
      rewrite Hsame in Ha. apply list_elem_of_fmap in Ha as (b & -> & Hb).
      by apply Hok.
    + destruct (delete_address_store now req s) as [-> Hsub].
      intros a Ha. by apply Hok, Hsub.
    + destruct (post_subscribe_store req s) as [-> ->]. done.
    + rewrite cleanup_exec. cbn. intros a [Hn Ha]%list_elem_of_filter.
      pose proof (Hok a Ha) as Hu.
      apply list_elem_of_fmap in Hu as (u & Hid & Hu).
      apply list_elem_of_fmap. exists u. split; [done|].
      apply list_elem_of_filter. split; [|done]. by rewrite <- Hid.
  - intros now req ->. cbn [run].
    destruct (post_address_store now req s) as [->|(uid & Hauth & ->)];
      [by left|].
    right.
    exists uid, {| Address.id := addresses_seq s; Address.user_id := uid;
                   Address.cols := pick address_insert_columns (Req.body req) |}.
    split; [done|]. split; [reflexivity|].
    split; [|reflexivity]. by destruct Hauth as (_ & ? & _ & _ & ?).
  - intros now ->. cbn [run]. rewrite cleanup_journal.
    assert (references_ok (exec (cleanupInactiveUsers now) s)) as Hfinal.
    { rewrite references_ok_alt in Hok. apply references_ok_alt.
      rewrite cleanup_exec. cbn. intros a [Hn Ha]%list_elem_of_filter.
      pose proof (Hok a Ha) as Hu.
      apply list_elem_of_fmap in Hu as (u & Hid & Hu).
      apply list_elem_of_fmap. exists u. split; [done|].
      apply list_elem_of_filter. split; [|done]. by rewrite <- Hid. }
    destruct (decide (inactiveUsers now s = [])) as [Hnone|Hsome].
    { split; [constructor|]. split; [|done]. by intros s1 u a ?%elem_of_nil. }
    split; [|split; [|done]].
    + constructor; [|by constructor].
      rewrite references_ok_alt in Hok. apply references_ok_alt. cbn.
      intros a [_ Ha]%list_elem_of_filter. by apply Hok.
    + intros s1 u a Hs1 Hu Hgone Ha.
      apply elem_of_cons in Hs1 as [->|Hs1]; [done|].
      apply list_elem_of_singleton in Hs1 as ->.
      rewrite cleanup_exec in Hgone, Ha. cbn in Hgone, Ha.
      apply list_elem_of_filter in Ha as [Hkept _].
      intros Hown. apply Hgone. apply list_elem_of_filter. split; [|done].
      by rewrite <- Hown.
Qed.

End References.

(* ===================================================================== *)
(** ** Well-formed stores

    The hypotheses the statements above make about a store (primary keys,
    unique mobile numbers, unique emails) are invariants of the server:
    they hold of the empty database and every event preserves them. *)

Section WellFormed.
Context `{Runtime}.

Ltac store_simpl :=
  cbn [users addresses news_letter users_seq addresses_seq
       set_users set_addresses set_news_letter set_users_seq set_addresses_seq].

Lemma NoDup_fmap_filter {A B} (f : A -> B) (P : A -> Prop)
    `{!forall x, Decision (P x)} (l : list A) :
  NoDup (f <$> l) -> NoDup (f <$> filter P l).
Proof.
  induction l as [|x l IH]; [done|].
  rewrite fmap_cons, NoDup_cons. intros [Hx Hl].
  destruct (decide (P x)).
  - rewrite filter_cons_True by done. rewrite fmap_cons, NoDup_cons.
    split; [|by apply IH].
    intros (y & Hy & Hin)%list_elem_of_fmap. apply Hx.
    apply list_elem_of_fmap. exists y. split; [done|].
    by apply list_elem_of_filter in Hin as [_ ?].
  - rewrite filter_cons_False by done. by apply IH.
Qed.

Lemma filter_all {A} (P : A -> Prop) `{!forall x, Decision (P x)} (l : list A) :
  (forall x, x ∈ l -> P x) -> filter P l = l.
Proof.
  induction l as [|x l IH]; intros Hl; [reflexivity|].
  rewrite filter_cons_True by (apply Hl; constructor).
  f_equal. apply IH. intros y Hy. apply Hl. by constructor.
Qed.

(** A property of a column carries over to a table with the same column. *)
Lemma Forall_same_column {A K} (f : A -> K) (P : K -> Prop) (l l' : list A) :
  f <$> l' = f <$> l ->
  Forall (fun x => P (f x)) l -> Forall (fun x => P (f x)) l'.
Proof.
  intros Hcol Hl.
  apply (Forall_fmap f P l'). rewrite Hcol. by apply (Forall_fmap f P l).
Qed.

Lemma NoDup_snoc_fresh {A} (l : list A) (x : A) :
  NoDup l -> x ∉ l -> NoDup (l ++ [x]).
Proof.
  intros Hl Hx. apply NoDup_app. repeat split; [done| |apply NoDup_singleton].
  intros y Hy ->%list_elem_of_singleton. done.
Qed.

(** A single-row lookup on a key column that comes back empty means the
    key is not in the table. *)
Lemma single_none_absent {A K} `{EqDecision K} (f : A -> K) (l : list A) (k : K) :
  NoDup (f <$> l) ->
  Postgrest.data (Postgrest.single (filter (fun x => f x = k) l)) = None ->
  k ∉ (f <$> l).
Proof.
  intros Hnd Hnone Hin.
  destruct (filter_key_unique f l k Hnd Hin) as (x & Hx & _).
  rewrite Hx in Hnone. discriminate.
Qed.

Lemma post_signup_exec now req s :
  exec (post_signup now req) s = s \/
  exists mobile_number email name,
    Postgrest.data
      (Postgrest.single
         (filter (fun u => User.mobile_number u = mobile_number) (users s))) = None /\
    exec (post_signup now req) s =
      set_users_seq (users_seq s + 1)
        (set_users
           (users s ++
              [{| User.id := users_seq s; User.mobile_number := mobile_number;
                  User.email := email; User.name := name;
                  User.last_login := last_login_default now |}]) s).
Proof.
  unfold post_signup, exec; cbv zeta.
  destruct (falsy _ || _ || _); [by left|].
  unfold bind, users_select, get, users_insert, res_status, ret.
  destruct (Postgrest.data _) eqn:Hd; [by left|].
  right. eexists _, _, _. split; [exact Hd|].
  cbn. by destruct (generateToken_or_throw _ _).
Qed.

Lemma post_login_exec now req s :
  exec (post_login now req) s = s \/
  exists uid,
    exec (post_login now req) s =
      set_users
        ((fun u => if decide (User.id u = uid)
                   then User.set_last_login (Some now) u else u) <$> users s) s.
Proof.
  unfold post_login, exec; cbv zeta.
  destruct (falsy _); [by left|].
  unfold bind, users_select, get, users_update, res_json, res_status, ret.
  destruct (Postgrest.data _) as [user|]; [|by left].
  right. exists (User.id user). cbn. by destruct (generateToken_or_throw _ _).
Qed.

Lemma put_address_exec now req s :
  exists l,
    exec (put_address now req) s = set_addresses l s /\
    Address.id <$> l = Address.id <$> addresses s /\
    Address.user_id <$> l = Address.user_id <$> addresses s.
Proof.
  unfold put_address, exec.
  destruct (guard_cases now req edit_address s) as [[r ->]|(uid & _ & ->)].
  { exists (addresses s). by rewrite set_addresses_id. }
  fold (exec (edit_address (Req.set_user_id (Some uid) req)) s).
  rewrite edit_address_rows.
  eexists; split; [reflexivity|]; split; by apply fmap_update_same.
Qed.

Lemma delete_address_exec now req s :
  exists (P : Address.t -> Prop) (dec : forall a, Decision (P a)),
    exec (delete_address now req) s = set_addresses (filter P (addresses s)) s.
Proof.
  unfold delete_address, exec.
  destruct (guard_cases now req remove_address s) as [[r ->]|(uid & _ & ->)].
  - exists (fun _ => True), _.
    by rewrite filter_all, set_addresses_id.
  - rewrite remove_address_eq. by eexists _, _.
Qed.

Lemma post_subscribe_exec req s :
  exec (post_subscribe req) s = s \/
  exists email,
    Postgrest.data
      (Postgrest.single (filter (fun e => e = email) (news_letter s))) = None /\
    exec (post_subscribe req) s = set_news_letter (news_letter s ++ [email]) s.
Proof.
  unfold post_subscribe, exec; cbv zeta.
  destruct (falsy _); [by left|].
  unfold bind, news_letter_select, get, news_letter_insert, res_status, ret.
  destruct (Postgrest.data _) eqn:Hd; [by left|].
  right. eexists. split; [exact Hd|]. reflexivity.
Qed.

Lemma well_formed_filter (P : User.t -> Prop) (Q : Address.t -> Prop)
    `{!forall u, Decision (P u)} `{!forall a, Decision (Q a)} s :
  well_formed s ->
  (forall a, a ∈ addresses s -> Q a ->
             exists u, u ∈ users s /\ P u /\ User.id u = Address.user_id a) ->
  well_formed (set_users (filter P (users s))
                 (set_addresses (filter Q (addresses s)) s)).
Proof.
  intros ([Hku Hka] & Hm & He & Hr & [Hsu Hsa]) Hkeep.
  repeat split; cbn.
  - by apply NoDup_fmap_filter.
  - by apply NoDup_fmap_filter.
  - by apply NoDup_fmap_filter.
  - done.
  - apply Forall_forall. intros a [Hq Ha]%list_elem_of_filter.
    destruct (Hkeep a Ha Hq) as (u & Hu & Hp & <-).
    apply list_elem_of_fmap_2. by apply list_elem_of_filter.
  - rewrite Forall_forall in Hsu. apply Forall_forall.
    intros u [_ Hu]%list_elem_of_filter. by apply Hsu.
  - rewrite Forall_forall in Hsa. apply Forall_forall.
    intros a [_ Ha]%list_elem_of_filter. by apply Hsa.
Qed.

(** Every event takes a well-formed store to a well-formed store. *)
Lemma run_well_formed (e : event) (s : store) :
  well_formed s -> well_formed (run e s).
Proof.
  intros Hwf.
  pose proof Hwf as ([Hku Hka] & Hm & He & Hr & [Hsu Hsa]).
  unfold unique_mobile, unique_email, references_ok in Hm, He, Hr.
  destruct e as [now req|now req|now req|now req|now req|req|now]; cbn [run].
  - destruct (post_signup_exec now req s)
      as [->|(m & e & n & Hnone & ->)]; [done|].
    apply single_none_absent in Hnone; [|done].
    unfold well_formed, primary_keys, unique_mobile, unique_email,
      references_ok, sequences_ahead.
    store_simpl. rewrite !fmap_app. cbn [fmap list_fmap].
    repeat split.
    + apply NoDup_snoc_fresh; [done|].
      intros (u & Hid & Hu)%list_elem_of_fmap.
      rewrite Forall_forall in Hsu. specialize (Hsu u Hu). cbn in Hid. lia.
    + done.
    + by apply NoDup_snoc_fresh.
    + done.
    + eapply Forall_impl; [exact Hr|]. cbn. intros a Ha.
      apply elem_of_app. by left.
    + apply Forall_app. split.
      * eapply Forall_impl; [exact Hsu|]. cbn. intros; lia.
      * repeat constructor. cbn. lia.
    + done.
  - destruct (post_login_exec now req s) as [->|(uid & ->)]; [done|].
    assert (forall {B} (f : User.t -> B),
               (forall u, f (User.set_last_login (Some now) u) = f u) ->
               f <$> ((fun u => if decide (User.id u = uid)
                                then User.set_last_login (Some now) u else u)
                        <$> users s) = f <$> users s) as HZ
      by (intros B f Hf; by apply fmap_update_same).
    unfold well_formed, primary_keys, unique_mobile, unique_email,
      references_ok, sequences_ahead.
    store_simpl. rewrite !HZ by done.
    repeat split; try done.
    apply (Forall_same_column User.id (fun k => k < users_seq s) (users s));
      [by apply HZ | done].
  - destruct (post_address_store now req s) as [->|(uid & Hauth & ->)]; [done|].
    unfold well_formed, primary_keys, unique_mobile, unique_email,
      references_ok, sequences_ahead.
    store_simpl. rewrite !fmap_app. cbn [fmap list_fmap].
    repeat split; try done.
    + apply NoDup_snoc_fresh; [done|].
      intros (a & Hid & Ha)%list_elem_of_fmap.
      rewrite Forall_forall in Hsa. specialize (Hsa a Ha). cbn in Hid. lia.
    + apply Forall_app. split; [exact Hr|].
      repeat constructor. cbn. by destruct Hauth as (_ & ? & _ & _ & ?).
    + apply Forall_app. split.
      * eapply Forall_impl; [exact Hsa|]. cbn. intros; lia.
      * repeat constructor. cbn. lia.
  - destruct (put_address_exec now req s) as (l & -> & Hid & Huid).
    unfold well_formed, primary_keys, unique_mobile, unique_email,
      references_ok, sequences_ahead.
    store_simpl. rewrite Hid.
    repeat split; try done.
    + by apply (Forall_same_column Address.user_id
                  (fun k => k ∈ User.id <$> users s) (addresses s)).
    + by apply (Forall_same_column Address.id
                  (fun k => k < addresses_seq s) (addresses s)).
  - destruct (delete_address_exec now req s) as (P & dec & ->).
    rewrite <- (set_users_id (set_addresses _ s)). cbn [users set_addresses].
    rewrite <- (filter_all (fun _ => True) (users s)) at 1 by done.
    apply well_formed_filter; [done|].
    intros a Ha _.
    rewrite Forall_forall in Hr.
    specialize (Hr a Ha). apply list_elem_of_fmap in Hr as (u & -> & Hu).
    by exists u.
  - destruct (post_subscribe_exec req s) as [->|(email & Hnone & ->)]; [done|].
    unfold well_formed, primary_keys, unique_mobile, unique_email,
      references_ok, sequences_ahead.
    store_simpl. repeat split; try done.
    apply NoDup_snoc_fresh; [done|].
    apply (single_none_absent (fun x : string => x)) in Hnone;
      by rewrite list_fmap_id in *.
  - rewrite cleanup_exec. apply well_formed_filter; [done|].
    intros a Ha Hn.
    rewrite Forall_forall in Hr.
    specialize (Hr a Ha). apply list_elem_of_fmap in Hr as (u & Hid & Hu).
    exists u. repeat split; [done| |done]. by rewrite <- Hid.
Qed.

Lemma empty_store_well_formed : well_formed empty_store.
Proof. repeat split; cbn; constructor. Qed.

(** X23. Every store the server can bring about is well formed; in
    particular ids are keys, and mobile numbers and newsletter emails are
    unique. *)
Lemma reachable_well_formed (s : store) : reachable s -> well_formed s.
Proof.
  induction 1 as [|e s _ IH]; [apply empty_store_well_formed|].
  by apply run_well_formed.
Qed.

End WellFormed.

(* ===================================================================== *)
(** ** The statements at concrete inputs *)

Module Instances.
Import Fixture.

Ltac by_evaluation := apply (bool_decide_unpack _); vm_compute; exact I.

Lemma codec_laws : @JWT.CodecLaws codec.
Proof.
  intros t. cbn. unfold wire_decode, wire_encode.
  assert (forall p, undigits (digits p) = Some p) as Hd.
  { induction p as [p IH|p IH|]; cbn; [rewrite IH..|]; reflexivity. }
  rewrite Hd. cbn. apply decode_encode.
Defined.

Lemma asha_authenticated :
  @authenticated runtime (today + 1000) (request_of today asha 7 ∅) db 1.
Proof.
  split; [vm_compute; reflexivity|].
  eexists. split; [vm_compute; reflexivity|].
  split; [reflexivity|]. by_evaluation.
Defined.

Lemma ravi_authenticated :
  @authenticated runtime (today + 1000) (request_of today ravi 7 ∅) db 2.
Proof.
  split; [vm_compute; reflexivity|].
  eexists. split; [vm_compute; reflexivity|].
  split; [reflexivity|]. by_evaluation.
Defined.

(** The model runs: a few requests against [db]. *)

Example guard_without_header :
  eval (@authenticateToken runtime today
          {| Req.authorization := None; Req.params_id := 7;
             Req.body := ∅; Req.user_id := None |} remove_address) db =
    {| status := 401; payload := ErrorBody "Access Denied. No token provided." |}.
Proof. vm_compute. reflexivity. Qed.

Example guard_with_garbage :
  eval (@authenticateToken runtime today
          {| Req.authorization := Some "Bearer not-a-token"; Req.params_id := 7;
             Req.body := ∅; Req.user_id := None |} remove_address) db =
    {| status := 403; payload := ErrorBody "Invalid or Expired Token." |}.
Proof. vm_compute. reflexivity. Qed.

Example guard_after_eight_days :
  eval (@authenticateToken runtime (today + 8 * JSDate.msPerDay)
          (request_of today asha 7 ∅) remove_address) db =
    {| status := 403; payload := ErrorBody "Invalid or Expired Token." |}.
Proof. vm_compute. reflexivity. Qed.

Example guard_for_deleted_user :
  eval (@authenticateToken runtime (today + 1000)
          (request_of today asha 7 ∅) remove_address) (set_users [ravi] db) =
    {| status := 403; payload := ErrorBody "User not found or token invalid." |}.
Proof. vm_compute. reflexivity. Qed.

Example signup_of_new_mobile :
  status (eval (@post_signup runtime today
                  {| Req.authorization := None; Req.params_id := 0;
                     Req.body := {[ "mobile_number" := "9000000009";
                                    "email" := "new@example.com";
                                    "name" := "New" ]};
                     Req.user_id := None |}) db) = 201.
Proof. vm_compute. reflexivity. Qed.

Example address_added_for_caller :
  Address.user_id <$>
    addresses (exec (@post_address runtime (today + 1000)
                       (request_of today ravi 0 {[ "city" := "Nagpur" ]})) db)
  = [1; 2].
Proof. vm_compute. reflexivity. Qed.

Example first_subscription :
  status (eval (post_subscribe
                  {| Req.authorization := None; Req.params_id := 0;
                     Req.body := {[ "email" := "fresh@example.com" ]};
                     Req.user_id := None |}) db) = 201.
Proof. vm_compute. reflexivity. Qed.

(** 2025-05-31 moved back three months is 2025-03-03: February has no
    31st and the date carries over. *)
Example cutoff_carries_over :
  @threeMonthsAgo runtime 1748649600000 = 1740960000000.
Proof. vm_compute. reflexivity. Qed.

Lemma db_primary_keys : primary_keys db.
Proof. split; by_evaluation. Defined.

Lemma lifecycle_db_primary_keys : primary_keys lifecycle_db.
Proof. split; by_evaluation. Defined.

Lemma session_guard_outcomes_witness :
  primary_keys db /\
  @authenticateToken runtime (today + 1000) (request_of today asha 7 ∅)
      (@remove_address) db =
    remove_address
      {| Req.authorization := Req.authorization (request_of today asha 7 ∅);
         Req.params_id := 7; Req.body := ∅; Req.user_id := Some 1 |} db.
Proof.
  split; [exact db_primary_keys|].
  destruct asha_authenticated as (Htok & decoded & Hv & Hu & Hin).
  exact (proj1 (proj2 (proj2 (proj2
           (@session_guard_outcomes runtime (today + 1000)
              (request_of today asha 7 ∅) remove_address db db_primary_keys))))
           Htok decoded 1 Hv Hu Hin).
Defined.

Lemma token_seven_day_window_witness :
  exists decoded,
    @JWT.verify codec (@generateToken runtime today asha) "s3cr3t"
                (today + 6 * JSDate.msPerDay) = inr decoded /\
    JWT.user_id decoded = Some 1.
Proof.
  destruct (@token_seven_day_window runtime codec_laws today asha)
    as ((decoded & Hv & Hu & _) & _).
  exists decoded. split; [exact Hv | exact Hu].
Defined.

Lemma delete_own_address_replies_404_witness :
  exists s',
    @delete_address runtime (today + 1000) (request_of today asha 7 ∅) db =
      ({| status := 404; payload := ErrorBody "Address not found or unauthorized" |}, s') /\
    users s' = users db /\
    (forall b, b ∈ addresses s' <-> b ∈ addresses db /\ b <> home).
Proof.
  apply (@delete_own_address_replies_404 runtime (today + 1000)
           (request_of today asha 7 ∅) db 1 home).
  - exact db_primary_keys.
  - exact asha_authenticated.
  - by_evaluation.
  - reflexivity.
  - reflexivity.
Defined.

Lemma delete_foreign_address_404_witness :
  @delete_address runtime (today + 1000) (request_of today ravi 7 ∅) db =
    ({| status := 404; payload := ErrorBody "Address not found or unauthorized" |}, db).
Proof.
  apply (@delete_foreign_address_404 runtime (today + 1000)
           (request_of today ravi 7 ∅) db 2 home).
  - exact db_primary_keys.
  - exact ravi_authenticated.
  - by_evaluation.
  - reflexivity.
  - vm_compute. discriminate.
Defined.

Lemma cleanup_run_witness :
  primary_keys lifecycle_db /\
  (U1 ∉ users (exec (@cleanupInactiveUsers runtime today) lifecycle_db)) /\
  (A1 ∉ addresses (exec (@cleanupInactiveUsers runtime today) lifecycle_db)) /\
  U2 ∈ users (exec (@cleanupInactiveUsers runtime today) lifecycle_db) /\
  A2 ∈ addresses (exec (@cleanupInactiveUsers runtime today) lifecycle_db).
Proof.
  split; [exact lifecycle_db_primary_keys|].
  destruct (@cleanup_run runtime today lifecycle_db lifecycle_db_primary_keys)
    as (_ & _ & _ & _ & _ & _ & _ & _ & Hscenario).
  assert (JSDate.varies_within (@LocalTZA runtime) 0) as Hzone
    by (intros t b t' b'; cbn; lia).
  assert (0 <= JSDate.msPerDay) as Hday by (unfold JSDate.msPerDay; lia).
  destruct (Hscenario 0 Hzone Hday U1 U2 A1 (@monthsAgo runtime 4 today)
              (@monthsAgo runtime 1 today)) as (H1 & H2 & H3 & H4);
    [by_evaluation | by_evaluation | by_evaluation
    | reflexivity | reflexivity | by left | by left | reflexivity |].
  repeat split; [exact H1 | exact H2 | exact H3 |].
  apply H4; [by_evaluation | reflexivity].
Defined.

Lemma references_preserved_witness :
  references_ok lifecycle_db /\
  references_ok (@run runtime (Cleanup today) lifecycle_db).
Proof.
  assert (references_ok lifecycle_db) as Hok by by_evaluation.
  split; [exact Hok|].
  exact (proj1 (@references_preserved runtime (Cleanup today) lifecycle_db Hok)).
Defined.

Lemma signup_duplicate_mobile_witness :
  exists message,
    @post_signup runtime today duplicate_signup db =
    ({| status := 400; payload := ErrorBody message |}, db).
Proof.
  apply (@signup_duplicate_mobile runtime today duplicate_signup db asha).
  - by_evaluation.
  - by_evaluation.
  - vm_compute. reflexivity.
Defined.

Lemma login_records_current_time_witness :
  Forall (fun v => v = Some today)
    (recorded_last_login 1 (exec (@post_login runtime today login_request) db)) /\
  Forall (fun v => v = Some (today + 1))
    (recorded_last_login 1
       (exec (@post_login runtime (today + 1) login_request)
          (exec (@post_login runtime today login_request) db))).
Proof.
  pose proof
    (@login_records_current_time runtime today (today + 1)
       login_request login_request
       db (exec (@post_login runtime today login_request) db)
       (eval (@post_login runtime today login_request) db)
       (eval (@post_login runtime (today + 1) login_request)
          (exec (@post_login runtime today login_request) db))
       (exec (@post_login runtime today login_request) db)
       (exec (@post_login runtime (today + 1) login_request)
          (exec (@post_login runtime today login_request) db))
       1) as Hlogin.
  destruct Hlogin as (_ & _ & Hfirst & Hsecond & _);
    [vm_compute; reflexivity..|].
  split; [exact Hfirst | exact Hsecond].
Defined.

Lemma subscribe_duplicate_409_witness :
  post_subscribe subscribe_request db =
    ({| status := 409; payload := MessageBody "Already subscribed" |}, db) /\
  subscriptions "news@example.com" db = 1%nat.
Proof.
  apply (proj1 (subscribe_duplicate_409 subscribe_request db
                  ltac:(by_evaluation))).
  - vm_compute. reflexivity.
  - by_evaluation.
Defined.

Lemma cleanup_keeps_never_logged_in_witness :
  ravi ∈ users (exec (@cleanupInactiveUsers runtime today) db).
Proof.
  apply (@cleanup_keeps_never_logged_in runtime today db ravi).
  - exact db_primary_keys.
  - by_evaluation.
  - reflexivity.
Defined.

End Instances.

(* ===================================================================== *)
(** ** Tokens through the guard *)

Lemma falsy_Some_false (v : string) : v <> EmptyString -> falsy (Some v) = false.
Proof. by destruct v. Qed.

Section TokenThroughGuard.
Context `{Runtime} `{!JWT.CodecLaws}.

(** X1. A token issued by [generateToken] for a user whose row exists,
    sent as the second word of the authorization header after any scheme
    word, is let through by the guard for as long as the clock, in whole
    seconds, is less than seven days past the second of issue: the handler
    then runs on the request with that user's id as its [user_id] and the
    header, path parameter and body as they came in.  From then on the
    guard answers 403 "Invalid or Expired Token.".  The scheme word itself
    is never looked at. *)
Theorem issued_token_through_guard (T now : Z) (user : User.t)
    (scheme : string) (req : Req.t) (next : Req.t -> App reply) (s : store) :
  primary_keys s ->
  User.id user ∈ (User.id <$> users s) ->
  occurs " " scheme = false ->
  occurs " " (generateToken T user) = false ->
  generateToken T user <> EmptyString ->
  Req.authorization req = Some (scheme ++ String " " (generateToken T user)) ->
  (now / 1000 < T / 1000 + 7 * 24 * 60 * 60 ->
     authenticateToken now req next s =
       next {| Req.authorization := Req.authorization req;
               Req.params_id := Req.params_id req;
               Req.body := Req.body req;
               Req.user_id := Some (User.id user) |} s) /\
  (T / 1000 + 7 * 24 * 60 * 60 <= now / 1000 ->
     authenticateToken now req next s =
       ({| status := 403; payload := ErrorBody "Invalid or Expired Token." |}, s)).
Proof.
  intros Hpk Hin Hscheme Hspace Hne Hhdr.
  pose proof (bearer_scheme req scheme _ Hhdr Hscheme Hspace) as Hb.
  pose proof (verify_generateToken T now user) as Hv.
  unfold JWT.expiresIn_7d in Hv. split; intros Hclock.
  - change (authenticateToken now req next s =
              next (Req.set_user_id (Some (User.id user)) req) s).
    apply guard_pass; [done|]. split; [by rewrite Hb; apply falsy_Some_false|].
    rewrite Hb. cbn [text]. rewrite Hv.
    destruct (Z.leb_spec (T / 1000 + 7 * 24 * 60 * 60) (now / 1000)); [lia|].
    eexists. split; [reflexivity|]. split; [reflexivity|done].
  - unfold authenticateToken; cbv zeta. rewrite Hb.
    rewrite falsy_Some_false by done. cbn [text]. rewrite Hv.
    destruct (Z.leb_spec (T / 1000 + 7 * 24 * 60 * 60) (now / 1000)); [done|lia].
Qed.

End TokenThroughGuard.

(* ===================================================================== *)
(** ** More about signup *)

Section SignupMore.
Context `{Runtime}.

(** What signup does when every field is there: it looks the mobile
    number up and inserts when the lookup yields no single row. *)
Lemma post_signup_fields now req s :
  falsy (Req.body req !! "mobile_number") = false ->
  falsy (Req.body req !! "email") = false ->
  falsy (Req.body req !! "name") = false ->
  post_signup now req s =
    let m := text (Req.body req !! "mobile_number") in
    let row := {| User.id := users_seq s; User.mobile_number := m;
                  User.email := text (Req.body req !! "email");
                  User.name := text (Req.body req !! "name");
                  User.last_login := last_login_default now |} in
    if truthy (Postgrest.data (Postgrest.single
                 (filter (fun u => User.mobile_number u = m) (users s))))
    then ({| status := 400;
             payload := ErrorBody "User already exists. Please log in." |}, s)
    else (if falsy (Some JWT_SECRET)
          then {| status := 500; payload := ErrorBody "Server error" |}
          else {| status := 201;
                  payload := SessionBody "Signup successful"
                               (generateToken now row) row |},
          set_users_seq (users_seq s + 1) (set_users (users s ++ [row]) s)).
Proof.
  intros Hm He Hn. unfold post_signup; cbv zeta. rewrite Hm, He, Hn. cbn [orb].
  unfold bind, users_select, get, users_insert, res_status, ret.
  destruct (truthy _); [done|].
  cbn -[falsy generateToken generateToken_or_throw].
  rewrite generateToken_or_throw_eq. by destruct (falsy (Some JWT_SECRET)).
Qed.

Lemma falsy_Some_true (v : string) : falsy (Some v) = true -> v = EmptyString.
Proof. by destruct v. Qed.



(** X4. Signing up twice with the same body: when the first signup is
    answered 201, the second is answered 400 and changes nothing. *)
Theorem signup_twice_second_400 now1 now2 req s r1 s1 :
  unique_mobile s ->
  post_signup now1 req s = (r1, s1) -> status r1 = 201 ->
  exists message,
    post_signup now2 req s1 =
      ({| status := 400; payload := ErrorBody message |}, s1).
Proof.
  intros Huniq Hfirst H201.
  destruct (falsy (Req.body req !! "mobile_number")) eqn:Hm;
    [|destruct (falsy (Req.body req !! "email")) eqn:He;
      [|destruct (falsy (Req.body req !! "name")) eqn:Hn]].
  1-3: unfold post_signup in Hfirst; cbv zeta in Hfirst;
       rewrite ?Hm, ?He, ?Hn in Hfirst; cbn in Hfirst;
       injection Hfirst as <- <-; discriminate.
  rewrite post_signup_fields in Hfirst by done. cbv zeta in Hfirst.
  destruct (truthy _) eqn:Hfound in Hfirst;
    [injection Hfirst as <- <-; discriminate|].
  destruct (falsy (Some JWT_SECRET)); injection Hfirst as <- <-;
    [discriminate|].
  rewrite post_signup_fields by done. cbv zeta.
  cbn [users set_users set_users_seq].
  set (m := text (Req.body req !! "mobile_number")) in *.
  assert (m ∉ (User.mobile_number <$> users s)) as Habsent.
  { intros Hin.
    destruct (filter_key_unique User.mobile_number (users s) m Huniq Hin)
      as (x & Hx & _).
    rewrite Hx in Hfound. discriminate. }
  rewrite filter_app, (filter_key_absent User.mobile_number) by done.
  rewrite filter_cons_True by done. by eexists.
Qed.

End SignupMore.

(* ===================================================================== *)
(** ** More about login *)

Section LoginMore.
Context `{Runtime}.

(** Login with a mobile number in the body: the lookup decides. *)
Lemma post_login_lookup now req s :
  falsy (Req.body req !! "mobile_number") = false ->
  post_login now req s =
    match Postgrest.data (Postgrest.single
            (filter (fun u => User.mobile_number u =
                              text (Req.body req !! "mobile_number")) (users s))) with
    | None =>
        ({| status := 404; payload := ErrorBody "User not found. Please sign up." |}, s)
    | Some user =>
        (if falsy (Some JWT_SECRET)
         then {| status := 500; payload := ErrorBody "Server error" |}
         else {| status := 200;
                 payload := SessionBody "Login successful"
                              (generateToken now user) user |},
         set_users
           ((fun u => if decide (User.id u = User.id user)
                      then User.set_last_login (Some now) u else u) <$> users s) s)
    end.
Proof.
  intros Hm. unfold post_login; cbv zeta. rewrite Hm.
  unfold bind, users_select, get, users_update, res_json, res_status, ret.
  destruct (Postgrest.data _) as [user|]; [|done].
  cbn -[falsy generateToken generateToken_or_throw].
  rewrite generateToken_or_throw_eq. by destruct (falsy (Some JWT_SECRET)).
Qed.

(** X5. Login changes nothing but [last_login]: whatever the request,
    the users table afterwards is the old one row for row once
    [last_login] is blanked out on both sides, and addresses, newsletter
    rows and sequences are untouched.  With an answer of 400 or 404 (any
    status but 200 and 500) the store is exactly as before.  A 500 is
    answered only when the signing secret is empty or unset, and then the
    user was found and the stamp has been written before signing threw. *)
Theorem login_only_stamps now req s :
  User.set_last_login None <$> users (exec (post_login now req) s) =
    User.set_last_login None <$> users s /\
  addresses (exec (post_login now req) s) = addresses s /\
  news_letter (exec (post_login now req) s) = news_letter s /\
  users_seq (exec (post_login now req) s) = users_seq s /\
  addresses_seq (exec (post_login now req) s) = addresses_seq s /\
  (status (eval (post_login now req) s) <> 200 ->
   status (eval (post_login now req) s) <> 500 ->
     exec (post_login now req) s = s) /\
  (status (eval (post_login now req) s) = 500 ->
     JWT_SECRET = EmptyString /\
     exists user,
       user ∈ users s /\
       Some (User.mobile_number user) = Req.body req !! "mobile_number" /\
       User.set_last_login (Some now) user ∈ users (exec (post_login now req) s)).
Proof.
  unfold eval, exec.
  destruct (falsy (Req.body req !! "mobile_number")) eqn:Hm.
  { unfold post_login; cbv zeta. rewrite Hm. cbn.
    repeat split; try done; intros [=]. }
  rewrite post_login_lookup by done.
  destruct (filter _ (users s)) as [|user [|? ?]] eqn:Hf; cbn -[falsy];
    [repeat split; try done; intros [=] | | repeat split; try done; intros [=]].
  assert (user ∈ filter (fun u => User.mobile_number u =
            text (Req.body req !! "mobile_number")) (users s)) as Hin
    by (rewrite Hf; constructor).
  apply list_elem_of_filter in Hin as [Hmob Hin].
  split; [|split; [done|split; [done|split; [done|split; [done|]]]]].
  { rewrite <- list_fmap_compose. apply list_fmap_ext.
    intros i u _. cbn. by destruct (decide _). }
  destruct (falsy (Some JWT_SECRET)) eqn:Hsecret; cbn -[falsy].
  - split; [intros _ Hn; by destruct Hn|].
    intros _. split; [by apply falsy_Some_true|].
    exists user. split; [done|]. split.
    + rewrite Hmob. by destruct (Req.body req !! "mobile_number").
    + apply list_elem_of_fmap. exists user. split; [|done].
      by rewrite decide_True.
  - split; [intros Hn; by destruct Hn|intros [=]].
Qed.

(** X6. A login whose mobile number no user has is answered 404 "User
    not found. Please sign up." and changes nothing; a login without a
    mobile number is answered 400 and changes nothing. *)
Theorem login_unknown_mobile now req s :
  (falsy (Req.body req !! "mobile_number") = true ->
     post_login now req s =
       ({| status := 400; payload := ErrorBody "Mobile number is required" |}, s)) /\
  (falsy (Req.body req !! "mobile_number") = false ->
     text (Req.body req !! "mobile_number") ∉ (User.mobile_number <$> users s) ->
     post_login now req s =
       ({| status := 404; payload := ErrorBody "User not found. Please sign up." |}, s)).
Proof.
  split.
  - intros Hm. unfold post_login; cbv zeta. by rewrite Hm.
  - intros Hm Habsent. rewrite post_login_lookup by done.
    by rewrite (filter_key_absent User.mobile_number).
Qed.

(** X7. The user object in a successful login reply is the row as it was
    before this login: it is a row of the old table, found by its mobile
    number, and the table afterwards holds that row with [last_login] set
    to the clock.  The reply therefore shows the previous last login, not
    the one just recorded. *)
Theorem login_reply_previous_row now req s r s' :
  post_login now req s = (r, s') -> status r = 200 ->
  exists user,
    r = {| status := 200;
           payload := SessionBody "Login successful" (generateToken now user) user |} /\
    user ∈ users s /\
    Some (User.mobile_number user) = Req.body req !! "mobile_number" /\
    User.set_last_login (Some now) user ∈ users s'.
Proof.
  intros Hlogin H200.
  destruct (falsy (Req.body req !! "mobile_number")) eqn:Hm.
  { unfold post_login in Hlogin; cbv zeta in Hlogin. rewrite Hm in Hlogin.
    injection Hlogin as <- <-. discriminate. }
  rewrite post_login_lookup in Hlogin by done.
  destruct (filter _ (users s)) as [|user [|? ?]] eqn:Hf;
    cbn -[falsy] in Hlogin;
    [injection Hlogin as <- <-; discriminate | |
     injection Hlogin as <- <-; discriminate].
  destruct (falsy (Some JWT_SECRET)); injection Hlogin as <- <-;
    [discriminate|].
  assert (user ∈ filter (fun u => User.mobile_number u =
            text (Req.body req !! "mobile_number")) (users s)) as Hin
    by (rewrite Hf; constructor).
  apply list_elem_of_filter in Hin as [Hmob Hin].
  exists user. repeat split; [done| |].
  - rewrite Hmob. by destruct (Req.body req !! "mobile_number").
  - cbn. apply list_elem_of_fmap. exists user. split; [|done].
    by rewrite decide_True.
Qed.

(** X8. A user who has just logged in is safe from the lifecycle job for
    89 days less the most the host's zone offset varies (an hour where
    daylight saving is observed, nothing on a host at a fixed offset):
    after a login answered 200 at time [t], a run of the job at any [now]
    at most that much later removes no row of that user and none of that
    user's addresses. *)
Theorem recent_login_survives_cleanup t now req s r s1 uid V :
  JSDate.varies_within LocalTZA V ->
  post_login t req s = (r, s1) -> status r = 200 ->
  session_user r = Some uid ->
  now - t <= 89 * JSDate.msPerDay - V ->
  (forall u, u ∈ users s1 -> User.id u = uid ->
             u ∈ users (exec (cleanupInactiveUsers now) s1)) /\
  (forall a, a ∈ addresses s1 -> Address.user_id a = uid ->
             a ∈ addresses (exec (cleanupInactiveUsers now) s1)).
Proof.
  intros Hzone Hlogin H200 Huid Hrecent.
  destruct (login_success _ _ _ _ _ Hlogin H200) as (user & _ & -> & Hrec).
  cbn in Huid. injection Huid as <-.
  assert (User.id user ∉ (User.id <$> inactiveUsers now s1)) as Hnot.
  { intros (v & Hid & Hv)%list_elem_of_fmap.
    apply inactiveUsers_spec in Hv as (Hv & tv & Htv & Hlt).
    assert (User.last_login v ∈ recorded_last_login (User.id user) s1) as Hin.
    { unfold recorded_last_login. apply list_elem_of_fmap_2.
      by apply list_elem_of_filter. }
    rewrite Hrec in Hin. apply list_elem_of_fmap in Hin as (? & Hstamp & _).
    rewrite Htv in Hstamp. injection Hstamp as ->.
    pose proof (CutoffFacts.threeMonthsAgo_window now V Hzone) as [_ Hcut].
    unfold JSDate.msPerDay in *. lia. }
  split.
  - intros u Hu Hid. rewrite cleanup_exec. cbn.
    apply list_elem_of_filter. split; [by rewrite Hid|done].
  - intros a Ha Hown. apply cleanup_addresses. split; [done|by rewrite Hown].
Qed.

(** X9. The login route of the earlier copy of the server gives, for
    every request and store, the same reply as the login route of
    [server.js], and never writes to the store: the two differ in the
    [last_login] update and in nothing else. *)
Theorem login_differs_only_in_stamp now req s :
  eval (post_login_earlier now req) s = eval (post_login now req) s /\
  exec (post_login_earlier now req) s = s /\
  User.set_last_login None <$> users (exec (post_login now req) s) =
    User.set_last_login None <$> users (exec (post_login_earlier now req) s).
Proof.
  unfold eval, exec, post_login_earlier, post_login; cbv zeta.
  destruct (falsy _); [done|].
  unfold bind, users_select, get, users_update, res_json, res_status, ret.
  destruct (Postgrest.data _) as [user|]; cbn; [|done].
  destruct (generateToken_or_throw _ _); cbn; repeat split.
  all: rewrite <- list_fmap_compose; apply list_fmap_ext.
  all: intros i u _; cbn; by destruct (decide _).
Qed.

End LoginMore.

(* ===================================================================== *)
(** ** More about the address routes *)


(** Updating the rows that match nothing leaves the table as it was. *)
Lemma update_none {A} (f : A -> A) (P : A -> Prop) `{!forall x, Decision (P x)}
    (l : list A) :
  (forall x, x ∈ l -> ~ P x) ->
  (fun x => if decide (P x) then f x else x) <$> l = l.
Proof.
  intros Hl. rewrite <- (list_fmap_id l) at 2. apply list_fmap_ext.
  intros i x Hx. cbn. rewrite decide_False; [done|].
  apply Hl. by eapply list_elem_of_lookup_2.
Qed.


(** A filter that no row passes selects nothing. *)
Lemma filter_none {A} (P : A -> Prop) `{!forall x, Decision (P x)} (l : list A) :
  (forall x, x ∈ l -> ~ P x) -> filter P l = [].
Proof.
  intros Hl. apply elem_of_nil_inv. intros x [HP Hx]%list_elem_of_filter.
  by apply (Hl x).
Qed.

Section AddressMore.
Context `{Runtime}.



(** X12. An authenticated PUT /address/:id that matches no address of
    the caller (no row has that id, or the row belongs to someone else)
    is answered 404 "Address not found or unauthorized access." and
    changes nothing. *)
Theorem put_address_no_match now req s uid :
  primary_keys s -> authenticated now req s uid ->
  (forall a, a ∈ addresses s -> Address.id a = Req.params_id req ->
             Address.user_id a <> uid) ->
  put_address now req s =
    ({| status := 404;
        payload := ErrorBody "Address not found or unauthorized access." |}, s).
Proof.
  intros Hpk Hauth Hnone.
  unfold put_address. rewrite (guard_pass _ _ _ uid) by done.
  unfold edit_address, bind, addresses_patch; cbv zeta.
  cbn [Req.user_id Req.params_id Req.body Req.set_user_id].
  destruct (decide (pick address_update_columns (Req.body req) = ∅));
    [done|]. unfold addresses_update.
  assert (forall a, a ∈ addresses s ->
            ~ (Address.id a = Req.params_id req /\ Some (Address.user_id a) = Some uid))
    as Hno by (intros a Ha [Hid [= Hu]]; by apply (Hnone a)).
  rewrite update_none by done.
  rewrite (filter_none _ (addresses s)) by done. cbn.
  by rewrite set_addresses_id.
Qed.

(** X13. DELETE /address/:id never removes an address of anyone but the
    caller and never touches a user: whatever the request, every address
    whose owner is not the user the request authenticates as is still
    there afterwards, and the users table is the same. *)
Theorem delete_address_spares_others now req s :
  users (exec (delete_address now req) s) = users s /\
  (forall a, a ∈ addresses s ->
     (forall uid, authenticated now req s uid -> Address.user_id a <> uid) ->
     a ∈ addresses (exec (delete_address now req) s)) /\
  (forall a, a ∈ addresses s -> Address.id a <> Req.params_id req ->
     a ∈ addresses (exec (delete_address now req) s)).
Proof.
  unfold delete_address, exec.
  destruct (guard_cases now req remove_address s) as [[r ->]|(uid & Hauth & ->)];
    [done|].
  rewrite remove_address_eq. cbn. split; [done|]. split.
  - intros a Ha Hother. apply list_elem_of_filter. split; [|done].
    intros [_ [= Hown]]. by apply (Hother uid).
  - intros a Ha Hid. apply list_elem_of_filter. split; [|done]. tauto.
Qed.

(** X22. PUT /address/:id never edits an address of anyone but the
    caller: whatever the request, every address whose owner is not the
    user the request authenticates as, and every address with another id,
    is still there unchanged; the table keeps its ids and owners row for
    row, and the users table is the same. *)
Theorem put_address_spares_others now req s :
  users (exec (put_address now req) s) = users s /\
  Address.id <$> addresses (exec (put_address now req) s) =
    Address.id <$> addresses s /\
  Address.user_id <$> addresses (exec (put_address now req) s) =
    Address.user_id <$> addresses s /\
  (forall a, a ∈ addresses s ->
     (forall uid, authenticated now req s uid -> Address.user_id a <> uid) ->
     a ∈ addresses (exec (put_address now req) s)) /\
  (forall a, a ∈ addresses s -> Address.id a <> Req.params_id req ->
     a ∈ addresses (exec (put_address now req) s)).
Proof.
  destruct (put_address_store now req s) as [Husers Howners].
  split; [done|]. split; [|split; [done|]].
  - unfold put_address, exec.
    destruct (guard_cases now req edit_address s) as [[r ->]|(uid & _ & ->)];
      [done|].
    fold (exec (edit_address (Req.set_user_id (Some uid) req)) s).
    rewrite edit_address_rows. cbn. by apply fmap_update_same.
  - unfold put_address, exec.
    destruct (guard_cases now req edit_address s) as [[r ->]|(uid & Hauth & ->)];
      [done|].
    fold (exec (edit_address (Req.set_user_id (Some uid) req)) s).
    rewrite edit_address_rows. cbn. split.
    + intros a Ha Hother. apply list_elem_of_fmap. exists a. split; [|done].
      rewrite decide_False; [done|]. intros [_ [= Hown]]. by apply (Hother uid).
    + intros a Ha Hid. apply list_elem_of_fmap. exists a. split; [|done].
      rewrite decide_False; [done|]. tauto.
Qed.

(** X14. Adding an address and then deleting it by the id it was given
    brings the addresses table back to what it was (the sequence has moved
    on by one). *)
Theorem post_then_delete_address now1 now2 req1 req2 s uid :
  primary_keys s -> sequences_ahead s ->
  authenticated now1 req1 s uid -> authenticated now2 req2 s uid ->
  Req.params_id req2 = addresses_seq s ->
  let s1 := exec (post_address now1 req1) s in
  let s2 := exec (delete_address now2 req2) s1 in
  addresses s2 = addresses s /\ users s2 = users s /\
  addresses_seq s2 = addresses_seq s + 1.
Proof.
  intros Hpk [_ Hseq] Hauth1 Hauth2 Hid s1 s2. subst s1 s2.
  unfold post_address, delete_address, exec.
  rewrite (guard_pass now1 req1 s uid add_address Hpk Hauth1).
  unfold add_address, bind, addresses_insert, res_status, ret.
  cbn [Req.user_id Req.set_user_id Req.body Postgrest.single Postgrest.error
       Postgrest.data snd].
  match goal with
  | |- context [authenticateToken now2 req2 remove_address ?s1] =>
      rewrite (guard_pass now2 req2 s1 uid remove_address)
  end.
  - rewrite remove_address_eq. cbn. repeat split.
    rewrite filter_app, filter_cons_False, filter_nil, app_nil_r.
    + apply filter_not_none. intros a Ha [Haid _].
      rewrite Forall_forall in Hseq. specialize (Hseq a Ha). lia.
    + cbn. intros Hn. apply Hn. by rewrite Hid.
  - destruct Hpk as [Hu Ha]. split; [done|]. cbn.
    rewrite fmap_app. apply NoDup_app. repeat split; [done| |apply NoDup_singleton].
    intros k (a & -> & Hin)%list_elem_of_fmap Hk%list_elem_of_singleton.
    rewrite Forall_forall in Hseq. specialize (Hseq a Hin). cbn in *. lia.
  - exact Hauth2.
Qed.

(** The guard looks at the users table and at nothing else of the store. *)
Lemma guard_reads_users now req s s' :
  users s' = users s ->
  (exists r, forall next : Req.t -> App reply,
      authenticateToken now req next s = (r, s) /\
      authenticateToken now req next s' = (r, s')) \/
  (exists uid, forall next : Req.t -> App reply,
      authenticateToken now req next s = next (Req.set_user_id (Some uid) req) s /\
      authenticateToken now req next s' = next (Req.set_user_id (Some uid) req) s').
Proof.
  intros Husers. unfold authenticateToken; cbv zeta.
  destruct (falsy (bearer req)); [left; by eexists|].
  destruct (JWT.verify _ _ _) as [e|decoded]; [left; by eexists|].
  unfold bind, users_select, get, ret, res_status.
  destruct (JWT.user_id decoded) as [uid|]; [|left; by eexists].
  cbv beta. rewrite Husers.
  destruct (filter _ (users s)) as [|u [|? ?]]; cbn;
    [left; by eexists | right; by exists uid | left; by eexists].
Qed.

(** X15. PUT /address/:id is idempotent: sending the same request twice
    leaves the store as sending it once. *)
Theorem put_address_idempotent now req s :
  exec (put_address now req) (exec (put_address now req) s) =
    exec (put_address now req) s.
Proof.
  destruct (put_address_store now req s) as [Husers _].
  destruct (guard_reads_users now req s _ Husers) as [[r Hr]|[uid Hr]];
    unfold put_address, exec in *.
  - destruct (Hr edit_address) as [H1 _]. rewrite H1. cbn. by rewrite H1.
  - destruct (Hr edit_address) as [H1 H2]. rewrite H2, H1.
    fold (exec (edit_address (Req.set_user_id (Some uid) req)) s).
    fold (exec (edit_address (Req.set_user_id (Some uid) req))
            (exec (edit_address (Req.set_user_id (Some uid) req)) s)).
    rewrite !edit_address_rows. cbn [addresses set_addresses].
    destruct s as [us ads nl useq aseq]. unfold set_addresses; cbn. f_equal.
    rewrite <- list_fmap_compose. apply list_fmap_ext. intros i a _. cbn.
    destruct (decide (Address.id a = _ /\ _)) as [HP|HP]; cbn.
    + rewrite decide_True by done. unfold Address.set_cols; cbn. f_equal.
      by rewrite (assoc_L (∪)), (idemp_L (∪)).
    + by rewrite decide_False.
Qed.

End AddressMore.

(* ===================================================================== *)
(** ** More about the newsletter *)

Section SubscribeMore.


End SubscribeMore.

(* ===================================================================== *)
(** ** More about the lifecycle job *)

Lemma filter_agree {A} (P Q : A -> Prop)
    `{!forall x, Decision (P x)} `{!forall x, Decision (Q x)} (l : list A) :
  (forall x, x ∈ l -> P x <-> Q x) -> filter P l = filter Q l.
Proof.
  induction l as [|x l IH]; intros Hl; [reflexivity|].
  assert (filter P l = filter Q l) as IH'
    by (apply IH; intros y Hy; apply Hl; by constructor).
  destruct (decide (P x)) as [HP|HP].
  - rewrite !filter_cons_True, IH'; [done|by apply Hl; [constructor|]|done].
  - rewrite !filter_cons_False, IH'; [done| |done].
    intros HQ. apply HP. apply Hl; [constructor|done].
Qed.

Lemma filter_split_length {A} (P : A -> Prop) `{!forall x, Decision (P x)}
    (l : list A) :
  (length (filter P l) + length (filter (fun x => ~ P x) l))%nat = length l.
Proof.
  induction l as [|x l IH]; [reflexivity|].
  destruct (decide (P x)) as [HP|HP].
  - rewrite filter_cons_True, (filter_cons_False (fun x => ~ P x)) by tauto.
    cbn. lia.
  - rewrite filter_cons_False, (filter_cons_True (fun x => ~ P x)) by tauto.
    cbn. lia.
Qed.

Section CleanupMore.
Context `{Runtime}.

(** After a run, nobody is left for the same cutoff. *)
Lemma cleanup_leaves_none now s :
  inactiveUsers now (exec (cleanupInactiveUsers now) s) = [].
Proof.
  rewrite cleanup_exec. unfold inactiveUsers at 1. cbn.
  apply filter_none. intros u [Hkept Hu]%list_elem_of_filter Hlt.
  apply Hkept. apply list_elem_of_fmap_2.
  unfold inactiveUsers. by apply list_elem_of_filter.
Qed.

(** X17. The job is idempotent: a second run at the same time deletes
    nothing more. *)
Theorem cleanup_idempotent now s :
  exec (cleanupInactiveUsers now) (exec (cleanupInactiveUsers now) s) =
    exec (cleanupInactiveUsers now) s.
Proof.
  rewrite (cleanup_exec now (exec (cleanupInactiveUsers now) s)).
  rewrite cleanup_leaves_none. cbn [fmap list_fmap].
  rewrite !filter_all by (intros ? _ []%elem_of_nil).
  by rewrite set_addresses_id, set_users_id.
Qed.

(** X18. What the job writes to the console matches what it did: with
    nobody selected it is silent and the store is unchanged; otherwise it
    logs one line whose count is the number of selected users, which, ids
    being keys, is the number of user rows that disappeared. *)
Theorem cleanup_reports_deleted now s :
  primary_keys s ->
  (inactiveUsers now s = [] ->
     cleanupInactiveUsers now s = ([], s)) /\
  (inactiveUsers now s <> [] ->
     eval (cleanupInactiveUsers now) s =
       [ConsoleLogDeleted (length (inactiveUsers now s))] /\
     (length (users (exec (cleanupInactiveUsers now) s))
        + length (inactiveUsers now s))%nat = length (users s)).
Proof.
  intros Hpk. split.
  - intros Hnone. unfold cleanupInactiveUsers, settle.
    rewrite cleanup_steps_eq. cbv zeta. by rewrite Hnone.
  - intros Hsome. split.
    + unfold eval, cleanupInactiveUsers, settle.
      rewrite cleanup_steps_eq. cbv zeta.
      by destruct (inactiveUsers now s).
    + rewrite cleanup_exec. cbn [users set_users].
      rewrite (filter_agree _
                 (fun u => ~ sql_lt (User.last_login u) (threeMonthsAgo now))).
      * unfold inactiveUsers. rewrite Nat.add_comm. apply filter_split_length.
      * intros u Hu. rewrite selected_by_id by done.
        unfold inactiveUsers. rewrite list_elem_of_filter. tauto.
Qed.

End CleanupMore.

(* ===================================================================== *)
(** ** The profile route *)

Section Profile.
Context `{Runtime}.

(** X19. GET /user, reached with the caller's id on the request: when a
    user row has that id the answer is 200 with that row and, embedded in
    it, exactly the addresses whose owner is the caller (no address of
    anyone else); when none has, the answer is 404 "User not found".  The
    store is never written. *)
Theorem fetch_user_own_profile req s uid :
  primary_keys s -> Req.user_id req = Some uid ->
  (uid ∈ (User.id <$> users s) ->
     exists user,
       user ∈ users s /\ User.id user = uid /\
       fetch_user req s =
         ({| profile_status := 200;
             profile_payload :=
               ProfileBody user
                 (filter (fun a => Address.user_id a = uid) (addresses s)) |}, s)) /\
  (uid ∉ (User.id <$> users s) ->
     fetch_user req s =
       ({| profile_status := 404;
           profile_payload := ProfileError "User not found" |}, s)).
Proof.
  intros [Hpk _] Hreq. unfold fetch_user. rewrite Hreq.
  unfold bind, users_select, get, ret. split.
  - intros Hin.
    destruct (filter_key_unique User.id (users s) uid Hpk Hin) as (u & -> & Hu & Hid).
    exists u. repeat split; [done..|]. cbn. by rewrite Hid.
  - intros Hout. by rewrite (filter_key_absent User.id).
Qed.

End Profile.

(* ===================================================================== *)
(** ** Routes one after another *)

Section Sequences.
Context `{Runtime}.

(** X20. Deleting a user revokes the user's tokens: once the lifecycle
    job has removed a user, a request carrying a token for that user's id
    is answered 403 "User not found or token invalid.", however fresh the
    token, and the handler does not run. *)
Theorem cleanup_revokes_tokens now now' req (next : Req.t -> App reply) s u decoded :
  primary_keys s -> u ∈ inactiveUsers now s ->
  falsy (bearer req) = false ->
  JWT.verify (text (bearer req)) JWT_SECRET now' = inr decoded ->
  JWT.user_id decoded = Some (User.id u) ->
  authenticateToken now' req next (exec (cleanupInactiveUsers now) s) =
    ({| status := 403; payload := ErrorBody "User not found or token invalid." |},
     exec (cleanupInactiveUsers now) s).
Proof.
  intros Hpk Hsel Htok Hv Hu.
  unfold authenticateToken; cbv zeta. rewrite Htok, Hv, Hu.
  unfold bind, users_select, get, ret, res_status.
  rewrite (filter_key_absent User.id); [done|].
  intros (v & Hid & Hv')%list_elem_of_fmap.
  apply cleanup_users in Hv' as [Hvs Hn]; [|done].
  apply Hn. apply selected_by_id; [done..|].
  rewrite <- Hid. by apply list_elem_of_fmap_2.
Qed.

(** X21. Signup then login: after a signup answered 201, a login with
    the same mobile number is answered 200 for the user just created, and
    stamps that user's row with the login time. *)
Theorem signup_then_login now1 now2 req1 req2 s r1 s1 :
  unique_mobile s ->
  post_signup now1 req1 s = (r1, s1) -> status r1 = 201 ->
  Req.body req2 !! "mobile_number" = Req.body req1 !! "mobile_number" ->
  exists user,
    session_user r1 = Some (User.id user) /\
    eval (post_login now2 req2) s1 =
      {| status := 200;
         payload := SessionBody "Login successful" (generateToken now2 user) user |} /\
    User.set_last_login (Some now2) user ∈ users (exec (post_login now2 req2) s1).
Proof.
  intros Huniq Hfirst H201 Hsame.
  destruct (falsy (Req.body req1 !! "mobile_number")) eqn:Hm;
    [|destruct (falsy (Req.body req1 !! "email")) eqn:He;
      [|destruct (falsy (Req.body req1 !! "name")) eqn:Hn]].
  1-3: unfold post_signup in Hfirst; cbv zeta in Hfirst;
       rewrite ?Hm, ?He, ?Hn in Hfirst; cbn in Hfirst;
       injection Hfirst as <- <-; discriminate.
  rewrite post_signup_fields in Hfirst by done. cbv zeta in Hfirst.
  destruct (truthy _) eqn:Hfound in Hfirst;
    [injection Hfirst as <- <-; discriminate|].
  destruct (falsy (Some JWT_SECRET)) eqn:Hsecret;
    injection Hfirst as <- <-; [discriminate|].
  set (m := text (Req.body req1 !! "mobile_number")) in *.
  assert (m ∉ (User.mobile_number <$> users s)) as Habsent.
  { intros Hin.
    destruct (filter_key_unique User.mobile_number (users s) m Huniq Hin)
      as (x & Hx & _).
    rewrite Hx in Hfound. discriminate. }
  eexists. split; [reflexivity|].
  unfold eval, exec. rewrite post_login_lookup by (by rewrite Hsame).
  rewrite Hsame. fold m. cbn [users set_users set_users_seq].
  rewrite filter_app, (filter_key_absent User.mobile_number) by done.
  rewrite filter_cons_True by done. cbn -[falsy]. rewrite Hsecret.
  split; [done|].
  rewrite fmap_app. apply elem_of_app. right. cbn.
  rewrite decide_True by done. constructor.
Qed.

End Sequences.

(* ===================================================================== *)
(** ** The further statements at concrete inputs *)

Module MoreInstances.
Import Fixture.

Ltac evaluated := apply (bool_decide_unpack _); vm_compute; exact I.

Lemma issued_token_through_guard_witness :
  @authenticateToken runtime (today + 1000) (request_of today asha 7 ∅)
      (@remove_address) db =
    remove_address
      {| Req.authorization := Req.authorization (request_of today asha 7 ∅);
         Req.params_id := 7; Req.body := ∅; Req.user_id := Some 1 |} db.
Proof.
  apply (@issued_token_through_guard runtime Instances.codec_laws
           today (today + 1000) asha "Bearer" (request_of today asha 7 ∅)
           remove_address db).
  - exact Instances.db_primary_keys.
  - evaluated.
  - vm_compute. reflexivity.
  - vm_compute. reflexivity.
  - vm_compute. discriminate.
  - vm_compute. reflexivity.
  - vm_compute. reflexivity.
Defined.


Lemma signup_twice_second_400_witness :
  exists message,
    @post_signup runtime (today + 1) fresh_signup
        (exec (@post_signup runtime today fresh_signup) db) =
      ({| status := 400; payload := ErrorBody message |},
       exec (@post_signup runtime today fresh_signup) db).
Proof.
  apply (@signup_twice_second_400 runtime today (today + 1) fresh_signup db
           (eval (@post_signup runtime today fresh_signup) db)).
  - evaluated.
  - vm_compute. reflexivity.
  - vm_compute. reflexivity.
Defined.

Lemma login_reply_previous_row_witness :
  exists user,
    eval (@post_login runtime today login_request) db =
      {| status := 200;
         payload := SessionBody "Login successful"
                      (@generateToken runtime today user) user |} /\
    user ∈ users db /\
    Some (User.mobile_number user) = Req.body login_request !! "mobile_number" /\
    User.set_last_login (Some today) user ∈
      users (exec (@post_login runtime today login_request) db).
Proof.
  apply (@login_reply_previous_row runtime today login_request db).
  - vm_compute. reflexivity.
  - vm_compute. reflexivity.
Defined.

Lemma recent_login_survives_cleanup_witness :
  User.set_last_login (Some today) asha ∈
    users (exec (@cleanupInactiveUsers runtime (today + 89 * JSDate.msPerDay))
             (exec (@post_login runtime today login_request) db)).
Proof.
  apply (proj1 (@recent_login_survives_cleanup runtime today
                  (today + 89 * JSDate.msPerDay) login_request db
                  (eval (@post_login runtime today login_request) db)
                  (exec (@post_login runtime today login_request) db) 1 0
                  ltac:(intros t b t' b'; cbn; lia)
                  ltac:(vm_compute; reflexivity) ltac:(vm_compute; reflexivity)
                  ltac:(vm_compute; reflexivity) ltac:(vm_compute; discriminate))).
  - evaluated.
  - reflexivity.
Defined.




Lemma put_address_no_match_witness :
  @put_address runtime (today + 1000)
      (request_of today ravi 7 {[ "city" := "Mumbai" ]}) db =
    ({| status := 404;
        payload := ErrorBody "Address not found or unauthorized access." |}, db).
Proof.
  apply (@put_address_no_match runtime (today + 1000)
           (request_of today ravi 7 {[ "city" := "Mumbai" ]}) db 2
           Instances.db_primary_keys).
  - split; [vm_compute; reflexivity|].
    eexists. split; [vm_compute; reflexivity|].
    split; [reflexivity|]. evaluated.
  - intros a Ha _. apply list_elem_of_singleton in Ha. subst a.
    vm_compute. discriminate.
Defined.

Lemma post_then_delete_address_witness :
  addresses
    (exec (@delete_address runtime (today + 2000) (request_of today asha 8 ∅))
       (exec (@post_address runtime (today + 1000)
                (request_of today asha 0 {[ "city" := "Nashik" ]})) db))
  = addresses db.
Proof.
  apply (@post_then_delete_address runtime (today + 1000) (today + 2000)
           (request_of today asha 0 {[ "city" := "Nashik" ]})
           (request_of today asha 8 ∅) db 1 Instances.db_primary_keys).
  - split; evaluated.
  - split; [vm_compute; reflexivity|].
    eexists. split; [vm_compute; reflexivity|].
    split; [reflexivity|]. evaluated.
  - split; [vm_compute; reflexivity|].
    eexists. split; [vm_compute; reflexivity|].
    split; [reflexivity|]. evaluated.
  - reflexivity.
Defined.

Lemma cleanup_reports_deleted_witness :
  eval (@cleanupInactiveUsers runtime today) lifecycle_db = [ConsoleLogDeleted 1] /\
  (length (users (exec (@cleanupInactiveUsers runtime today) lifecycle_db))
     + length (@inactiveUsers runtime today lifecycle_db))%nat
  = length (users lifecycle_db).
Proof.
  destruct (@cleanup_reports_deleted runtime today lifecycle_db
              Instances.lifecycle_db_primary_keys) as [_ Hsome].
  destruct Hsome as [Hlog Hcount]; [vm_compute; discriminate|].
  split; [|exact Hcount]. rewrite Hlog. vm_compute. reflexivity.
Defined.

Lemma fetch_user_own_profile_witness :
  exists user,
    user ∈ users db /\ User.id user = 1 /\
    @fetch_user (Req.set_user_id (Some 1) (request_of today asha 0 ∅)) db =
      ({| profile_status := 200;
          profile_payload :=
            ProfileBody user
              (filter (fun a => Address.user_id a = 1) (addresses db)) |}, db).
Proof.
  apply (proj1 (@fetch_user_own_profile
                  (Req.set_user_id (Some 1) (request_of today asha 0 ∅)) db 1
                  Instances.db_primary_keys eq_refl)).
  evaluated.
Defined.

Lemma cleanup_revokes_tokens_witness :
  @authenticateToken runtime (today + 1000) (request_of today U1 0 ∅)
      (@remove_address) (exec (@cleanupInactiveUsers runtime today) lifecycle_db) =
    ({| status := 403; payload := ErrorBody "User not found or token invalid." |},
     exec (@cleanupInactiveUsers runtime today) lifecycle_db).
Proof.
  eapply (@cleanup_revokes_tokens runtime today (today + 1000)
            (request_of today U1 0 ∅) remove_address lifecycle_db U1).
  - exact Instances.lifecycle_db_primary_keys.
  - evaluated.
  - vm_compute. reflexivity.
  - vm_compute. reflexivity.
  - reflexivity.
Defined.

Lemma signup_then_login_witness :
  exists user,
    session_user (eval (@post_signup runtime today fresh_signup) db) =
      Some (User.id user) /\
    eval (@post_login runtime (today + 1)
            {| Req.authorization := None; Req.params_id := 0;
               Req.body := {[ "mobile_number" := "9000000009" ]};
               Req.user_id := None |})
         (exec (@post_signup runtime today fresh_signup) db) =
      {| status := 200;
         payload := SessionBody "Login successful"
                      (@generateToken runtime (today + 1) user) user |}.
Proof.
  destruct (@signup_then_login runtime today (today + 1) fresh_signup
              {| Req.authorization := None; Req.params_id := 0;
                 Req.body := {[ "mobile_number" := "9000000009" ]};
                 Req.user_id := None |}
              db (eval (@post_signup runtime today fresh_signup) db)
              (exec (@post_signup runtime today fresh_signup) db))
    as (user & Hu & Hlogin & _).
  - evaluated.
  - vm_compute. reflexivity.
  - vm_compute. reflexivity.
  - vm_compute. reflexivity.
  - exists user. split; [exact Hu | exact Hlogin].
Defined.

Lemma reachable_well_formed_witness :
  well_formed
    (@run runtime (Signup today fresh_signup)
       (@run runtime (Subscribe fresh_subscribe) empty_store)).
Proof.
  apply (@reachable_well_formed runtime).
  apply reachable_run, reachable_run, reachable_empty.
Defined.

(** The offsets of New York differ by an hour at most. *)
Example new_york_varies_within_an_hour :
  JSDate.varies_within new_york_2026 3600000.
Proof.
  intros t b t' b'. unfold new_york_2026; cbv zeta.
  destruct b, b'; repeat case_match; lia.
Qed.

(** 2026-05-15T12:00Z is 08:00 daylight time in New York; three months
    back on that wall clock is 2026-02-15 08:00 standard time, which is
    13:00Z: 89 days less one hour before. *)
Example cutoff_across_daylight_saving :
  @threeMonthsAgo runtime_new_york 1778846400000 = 1771160400000 /\
  1778846400000 - 1771160400000 = 89 * JSDate.msPerDay - 3600000.
Proof. vm_compute. split; reflexivity. Qed.

(** Without a signing secret a signup is answered 500 and the user is
    stored all the same. *)
Example signup_without_secret :
  eval (@post_signup runtime_without_secret today fresh_signup) db =
    {| status := 500; payload := ErrorBody "Server error" |} /\
  User.mobile_number <$>
    users (exec (@post_signup runtime_without_secret today fresh_signup) db) =
    ["9876543210"; "9123456780"; "9000000009"].
Proof. vm_compute. split; reflexivity. Qed.

(** Without a signing secret a login is answered 500 and the login time
    is recorded all the same. *)
Example login_without_secret :
  eval (@post_login runtime_without_secret today login_request) db =
    {| status := 500; payload := ErrorBody "Server error" |} /\
  recorded_last_login 1
    (exec (@post_login runtime_without_secret today login_request) db) =
    [Some today].
Proof. vm_compute. split; reflexivity. Qed.

(** An update that names none of the eight editable fields finds no row:
    404, although the address is the caller's. *)
Example put_without_editable_field :
  @put_address runtime (today + 1000) edit_request_without_fields db =
    ({| status := 404;
        payload := ErrorBody "Address not found or unauthorized access." |}, db).
Proof. vm_compute. reflexivity. Qed.

End MoreInstances.
